(** * Ms. Pac-Man memory-patch rules (hackatari/games/mspacman.py)

    A shallow embedding of the rule engine of [mspacman.py]: the module-level
    toggles, the per-frame and per-reset rules that poke emulator RAM through
    [set_ram] / [get_ram], and the registry [modif_funcs] that turns a list of
    modification names into two callback lists.

    Python code that mutates module globals and the emulator memory, and that
    may raise, is written in a small state-and-exception monad [Py]: a
    computation takes the current state and returns an outcome together with
    the state it left behind (what was mutated before an exception stays
    mutated, as in Python). *)

From Stdlib Require Import ZArith String Ascii Bool Lia.
From stdpp Require Import base list.
From stdpp Require Import gmap sorting.
From Equations Require Import Equations.

Local Open Scope Z_scope.

(** ** Exceptions, outcomes and the [Py] monad *)

Inductive exn : Type :=
| IndexError
| OverflowError
| AttributeError
| TypeError
| ValueError (msg : string).

Inductive outcome (A : Type) : Type :=
| Ret (a : A)
| Raise (e : exn).
Arguments Ret {A} a.
Arguments Raise {A} e.

Definition Py (S A : Type) : Type := S -> outcome A * S.

Definition py_ret {S A} (a : A) : Py S A := fun s => (Ret a, s).

Definition py_bind {S A B} (f : A -> Py S B) (m : Py S A) : Py S B :=
  fun s =>
    match m s with
    | (Ret a, s') => f a s'
    | (Raise e, s') => (Raise e, s')
    end.

#[global] Instance Py_ret {S} : MRet (Py S) := @py_ret S.
#[global] Instance Py_bind {S} : MBind (Py S) := @py_bind S.

Definition raise {S A} (e : exn) : Py S A := fun s => (Raise e, s).
Definition gets {S A} (f : S -> A) : Py S A := fun s => (Ret (f s), s).
Definition modify {S} (f : S -> S) : Py S unit := fun s => (Ret tt, f s).

(** [if b: body] with no [else]. *)
Definition when {S} (b : bool) (body : Py S unit) : Py S unit :=
  if b then body else mret tt.

(** ** Module-level state *)

(** The seven module globals.  The four toggles start as the integer [0] and
    are only ever assigned [True] and tested for truth, so they are booleans
    here; [IS_INVERTED] is always one of [True] / [False]. *)
Record globals : Type := mkGlobals {
  TOGGLE_ORANGE : bool;
  TOGGLE_CYAN : bool;
  TOGGLE_PINK : bool;
  TOGGLE_RED : bool;
  NUMBER_POWER_PILLS : Z;
  LAST_PP_STATUS : Z;
  IS_INVERTED : bool
}.

(** The values the module is loaded with (lines 1-7). *)
Definition initial_globals : globals :=
  {| TOGGLE_ORANGE := false; TOGGLE_CYAN := false; TOGGLE_PINK := false;
     TOGGLE_RED := false; NUMBER_POWER_PILLS := 4; LAST_PP_STATUS := 4;
     IS_INVERTED := false |}.

Definition set_TOGGLE_ORANGE (b : bool) (g : globals) : globals :=
  mkGlobals b (TOGGLE_CYAN g) (TOGGLE_PINK g) (TOGGLE_RED g)
            (NUMBER_POWER_PILLS g) (LAST_PP_STATUS g) (IS_INVERTED g).
Definition set_TOGGLE_CYAN (b : bool) (g : globals) : globals :=
  mkGlobals (TOGGLE_ORANGE g) b (TOGGLE_PINK g) (TOGGLE_RED g)
            (NUMBER_POWER_PILLS g) (LAST_PP_STATUS g) (IS_INVERTED g).
Definition set_TOGGLE_PINK (b : bool) (g : globals) : globals :=
  mkGlobals (TOGGLE_ORANGE g) (TOGGLE_CYAN g) b (TOGGLE_RED g)
            (NUMBER_POWER_PILLS g) (LAST_PP_STATUS g) (IS_INVERTED g).
Definition set_TOGGLE_RED (b : bool) (g : globals) : globals :=
  mkGlobals (TOGGLE_ORANGE g) (TOGGLE_CYAN g) (TOGGLE_PINK g) b
            (NUMBER_POWER_PILLS g) (LAST_PP_STATUS g) (IS_INVERTED g).
Definition set_NUMBER_POWER_PILLS (n : Z) (g : globals) : globals :=
  mkGlobals (TOGGLE_ORANGE g) (TOGGLE_CYAN g) (TOGGLE_PINK g) (TOGGLE_RED g)
            n (LAST_PP_STATUS g) (IS_INVERTED g).
Definition set_LAST_PP_STATUS (n : Z) (g : globals) : globals :=
  mkGlobals (TOGGLE_ORANGE g) (TOGGLE_CYAN g) (TOGGLE_PINK g) (TOGGLE_RED g)
            (NUMBER_POWER_PILLS g) n (IS_INVERTED g).
Definition set_IS_INVERTED (b : bool) (g : globals) : globals :=
  mkGlobals (TOGGLE_ORANGE g) (TOGGLE_CYAN g) (TOGGLE_PINK g) (TOGGLE_RED g)
            (NUMBER_POWER_PILLS g) (LAST_PP_STATUS g) b.

(** ** The emulator memory *)

(** What a rule runs against: the module globals and the RAM of the
    environment object [self]. *)
Record world : Type := mkWorld {
  glob : globals;
  ram : list Z
}.

Definition is_byte (v : Z) : bool := (0 <=? v) && (v <? 256).

(** Modelled from the spec: the memory accessor of the environment object
    ([get_ram] / [set_ram]), which belongs to the external emulator.  The
    memory is an indexed sequence of integer cells; reading or writing a cell
    that does not exist, or writing a value outside 0..255, raises instead of
    growing or wrapping.  Cell values are plain (unbounded) integers. *)
Definition get_ram (i : nat) : Py world Z :=
  fun w =>
    match ram w !! i with
    | Some v => (Ret v, w)
    | None => (Raise IndexError, w)
    end.

Definition set_ram (i : nat) (v : Z) : Py world unit :=
  fun w =>
    if Nat.ltb i (length (ram w)) then
      if is_byte v then (Ret tt, mkWorld (glob w) (<[i:=v]> (ram w)))
      else (Raise OverflowError, w)
    else (Raise IndexError, w).

Definition read_global {A} (f : globals -> A) : Py world A :=
  gets (fun w => f (glob w)).

Definition write_global (f : globals -> globals) : Py world unit :=
  modify (fun w => mkWorld (f (glob w)) (ram w)).

(** ** The rules *)

Definition make_edible (ghost_number : nat) (x_pos : Z) (ram_x : nat)
    (y_pos : Z) (ram_y : nat) : Py world unit :=
  set_ram ghost_number 130 ;;
  set_ram ram_x x_pos ;;
  set_ram ram_y y_pos.

Definition set_start_condition : Py world unit :=
  make_edible 1 120 6 50 12 ;;
  make_edible 2 100 7 50 13 ;;
  make_edible 3 80 8 50 14 ;;
  make_edible 4 60 9 50 15 ;;
  set_ram 116 255.

Definition static_ghosts : Py world unit :=
  orange ← read_global TOGGLE_ORANGE;
  when orange (set_ram 6 93 ;; set_ram 12 80) ;;
  cyan ← read_global TOGGLE_CYAN;
  when cyan (set_ram 7 83 ;; set_ram 13 80) ;;
  pink ← read_global TOGGLE_PINK;
  when pink (set_ram 8 93 ;; set_ram 14 67) ;;
  red ← read_global TOGGLE_RED;
  when red (set_ram 9 83 ;; set_ram 15 67).

Definition number_power_pills : Py world unit :=
  n ← read_global NUMBER_POWER_PILLS;
  if n =? 0 then
    set_ram 62 80 ;; set_ram 95 80 ;; set_ram 117 0
  else if n =? 1 then
    set_ram 62 64 ;; set_ram 95 80 ;; set_ram 117 8
  else if n =? 2 then
    set_ram 62 0 ;; set_ram 95 80 ;; set_ram 117 40
  else if n =? 3 then
    set_ram 62 0 ;; set_ram 95 64 ;; set_ram 117 46
  else mret tt.

Definition edible_ghosts : Py world unit :=
  current_timer ← get_ram 116;
  current_orange ← get_ram 1;
  current_cyan ← get_ram 2;
  current_pink ← get_ram 3;
  current_red ← get_ram 4;
  when (current_timer <? 250) (set_ram 116 255) ;;
  when (current_orange =? 112) (make_edible 1 120 6 50 12) ;;
  when (current_cyan =? 112) (make_edible 2 100 7 50 13) ;;
  when (current_pink =? 112) (make_edible 3 80 8 50 14) ;;
  when (current_red =? 112) (make_edible 4 60 9 50 15).

(** The loop of [inverted_power_pill]: [while i < 5: set_ram(i, 0); i += 1].
    It terminates because [5 - i] decreases. *)
Equations? inverted_power_pill_loop (i : nat) : Py world unit
  by wf (5 - i)%nat lt :=
  inverted_power_pill_loop i with lt_dec i 5 := {
    | left _ => set_ram i 0 ;; inverted_power_pill_loop (i + 1)%nat
    | right _ => mret tt }.
Proof. lia. Qed.

Definition inverted_power_pill : Py world unit :=
  inverted_power_pill_loop 1 ;;
  set_ram 116 62.

(** The loop of [power_pill_is_done]: [while i < 5: set_ram(i, 130); i += 1]. *)
Equations? power_pill_is_done_loop (i : nat) : Py world unit
  by wf (5 - i)%nat lt :=
  power_pill_is_done_loop i with lt_dec i 5 := {
    | left _ => set_ram i 130 ;; power_pill_is_done_loop (i + 1)%nat
    | right _ => mret tt }.
Proof. lia. Qed.

Definition power_pill_is_done : Py world unit :=
  power_pill_is_done_loop 1 ;;
  set_ram 116 190.

Definition inverted_ms_pacman_reset : Py world unit :=
  set_start_condition ;;
  write_global (set_LAST_PP_STATUS 63) ;;
  write_global (set_IS_INVERTED false).

Definition inverted_ms_pacman : Py world unit :=
  current_pp_status ← get_ram 117;
  current_timer ← get_ram 116;
  current_orange ← get_ram 1;
  current_cyan ← get_ram 2;
  current_pink ← get_ram 3;
  current_red ← get_ram 4;
  inv ← read_global IS_INVERTED;
  when ((current_timer <? 250) && negb inv) (set_ram 116 255) ;;
  last ← read_global LAST_PP_STATUS;
  when (negb ((last - 3 <? current_pp_status)
              && (current_pp_status <? last + 3)))
    (write_global (set_IS_INVERTED true) ;;
     inverted_power_pill ;;
     write_global (set_LAST_PP_STATUS current_pp_status)) ;;
  when (current_timer =? 0)
    (write_global (set_IS_INVERTED false) ;;
     power_pill_is_done) ;;
  inv ← read_global IS_INVERTED;
  when ((current_orange =? 112) && negb inv) (make_edible 1 120 6 50 12) ;;
  inv ← read_global IS_INVERTED;
  when ((current_cyan =? 112) && negb inv) (make_edible 2 100 7 50 13) ;;
  inv ← read_global IS_INVERTED;
  when ((current_pink =? 112) && negb inv) (make_edible 3 80 8 50 14) ;;
  inv ← read_global IS_INVERTED;
  when ((current_red =? 112) && negb inv) (make_edible 4 60 9 50 15).

(** ** The registry *)

(** The module's functions as first-class values: what [modif_funcs] appends
    to its lists and what the runtime later calls. *)
Inductive funobj : Type :=
| fn_static_ghosts
| fn_number_power_pills
| fn_edible_ghosts
| fn_inverted_ms_pacman
| fn_inverted_ms_pacman_reset.

Definition funobj_eqb (f g : funobj) : bool :=
  match f, g with
  | fn_static_ghosts, fn_static_ghosts
  | fn_number_power_pills, fn_number_power_pills
  | fn_edible_ghosts, fn_edible_ghosts
  | fn_inverted_ms_pacman, fn_inverted_ms_pacman
  | fn_inverted_ms_pacman_reset, fn_inverted_ms_pacman_reset => true
  | _, _ => false
  end.

(** Calling a function object with the environment. *)
Definition call (f : funobj) : Py world unit :=
  match f with
  | fn_static_ghosts => static_ghosts
  | fn_number_power_pills => number_power_pills
  | fn_edible_ghosts => edible_ghosts
  | fn_inverted_ms_pacman => inverted_ms_pacman
  | fn_inverted_ms_pacman_reset => inverted_ms_pacman_reset
  end.

(** The values an element of [modifs] can be: a string (over characters
    with code points below 256), or one of the module's functions. *)
Inductive pyval : Type :=
| PyStr (s : string)
| PyFunc (f : funobj).

(** Python [==]: strings compare by content, functions by identity, and a
    string never equals a function. *)
Definition py_eq (a b : pyval) : bool :=
  match a, b with
  | PyStr s, PyStr t => String.eqb s t
  | PyFunc f, PyFunc g => funobj_eqb f g
  | _, _ => false
  end.

(** [mod.startswith(p)]: a function object has no such attribute. *)
Definition startswith {S} (v : pyval) (p : string) : Py S bool :=
  match v with
  | PyStr s => mret (String.prefix p s)
  | PyFunc _ => raise AttributeError
  end.

Fixpoint last_char (s : string) : option ascii :=
  match s with
  | EmptyString => None
  | String c EmptyString => Some c
  | String _ rest => last_char rest
  end.

(** [mod[-1]]: the last character of a string; a function object cannot be
    subscripted. *)
Definition index_last {S} (v : pyval) : Py S ascii :=
  match v with
  | PyStr s =>
      match last_char s with
      | Some c => mret c
      | None => raise IndexError
      end
  | PyFunc _ => raise TypeError
  end.

(** [int(c)] for a one-character string: the digit's value, or ValueError
    (whose message, in Python, goes on to quote the literal).  This is
    Python's [int] for every ASCII character.  For a character outside
    ASCII Python consults the Unicode database, which also accepts the
    decimal digits of other scripts; here such a character is not a digit,
    and a statement that depends on the result of [int] says that it is
    about an ASCII character. *)
Definition int_of_char {S} (c : ascii) : Py S Z :=
  let n := Z.of_N (N_of_ascii c) in
  if (48 <=? n) && (n <=? 57) then mret (n - 48)
  else raise (ValueError "invalid literal for int() with base 10").

(** The state [modif_funcs] works on: the module globals and its two local
    lists. *)
Record cfg : Type := mkCfg {
  cfg_glob : globals;
  step_modifs : list funobj;
  reset_modifs : list funobj
}.

Definition assign_global (f : globals -> globals) : Py cfg unit :=
  modify (fun c => mkCfg (f (cfg_glob c)) (step_modifs c) (reset_modifs c)).

Definition step_modifs_append (f : funobj) : Py cfg unit :=
  modify (fun c => mkCfg (cfg_glob c) (step_modifs c ++ [f]) (reset_modifs c)).

Definition reset_modifs_append (f : funobj) : Py cfg unit :=
  modify (fun c => mkCfg (cfg_glob c) (step_modifs c) (reset_modifs c ++ [f])).

(** The body of [for mod in modifs] (the loop variable is [mod_] here). *)
Definition modif_funcs_body (mod_ : pyval) : Py cfg unit :=
  if py_eq mod_ (PyStr "caged_ghosts") then
    assign_global (set_TOGGLE_CYAN true) ;;
    assign_global (set_TOGGLE_ORANGE true) ;;
    assign_global (set_TOGGLE_RED true) ;;
    assign_global (set_TOGGLE_PINK true) ;;
    step_modifs_append fn_static_ghosts
  else if py_eq mod_ (PyStr "disable_orange") then
    assign_global (set_TOGGLE_ORANGE true) ;;
    step_modifs_append fn_static_ghosts
  else if py_eq mod_ (PyStr "disable_red") then
    assign_global (set_TOGGLE_RED true) ;;
    step_modifs_append fn_static_ghosts
  else if py_eq mod_ (PyStr "disable_cyan") then
    assign_global (set_TOGGLE_CYAN true) ;;
    step_modifs_append fn_static_ghosts
  else if py_eq mod_ (PyStr "disable_pink") then
    assign_global (set_TOGGLE_PINK true) ;;
    step_modifs_append fn_static_ghosts
  else
    is_power ← startswith mod_ "power";
    if is_power : bool then
      c ← index_last mod_;
      mod_n ← int_of_char c;
      if (mod_n <? 0) || (mod_n >? 4) then
        raise (ValueError "Invalid Number of Power Pills")
      else
        assign_global (set_NUMBER_POWER_PILLS mod_n) ;;
        reset_modifs_append fn_number_power_pills
    else if py_eq mod_ (PyFunc fn_edible_ghosts) then
      step_modifs_append fn_edible_ghosts
    else if py_eq mod_ (PyStr "inverted") then
      step_modifs_append fn_inverted_ms_pacman ;;
      reset_modifs_append fn_inverted_ms_pacman_reset
    else mret tt.

Fixpoint for_each {S A} (l : list A) (body : A -> Py S unit) : Py S unit :=
  match l with
  | [] => mret tt
  | x :: rest => body x ;; for_each rest body
  end.

(** [modif_funcs]: the two lists start empty, the loop runs, and the lists
    are returned; when the loop raises, the lists are lost with the frame
    and only the changes to the globals remain. *)
Definition modif_funcs (modifs : list pyval)
  : Py globals (list funobj * list funobj) :=
  fun g =>
    match for_each modifs modif_funcs_body (mkCfg g [] []) with
    | (Ret _, c) => (Ret (step_modifs c, reset_modifs c), cfg_glob c)
    | (Raise e, c) => (Raise e, cfg_glob c)
    end.

(** ** Predicates used in the statements *)

(** The names [modif_funcs] compares [mod] against with [==]. *)
Definition known_names : list string :=
  ["caged_ghosts"; "disable_orange"; "disable_red"; "disable_cyan";
   "disable_pink"; "inverted"]%string.

Definition known_name (s : string) : bool :=
  existsb (String.eqb s) known_names.

(** The power-pill-count family in the spec's words: the names [powerN],
    the word [power] followed by one decimal digit [N]. *)
Definition spec_power_family (s : string) : bool :=
  existsb (String.eqb s)
    ["power0"; "power1"; "power2"; "power3"; "power4";
     "power5"; "power6"; "power7"; "power8"; "power9"]%string.

(** The step from [w] to [w'] did not enter inverted mode: no switch from
    normal to inverted, the recorded marker is the old one, no entity cell
    was set to 0 and the timer was not set to 62 (a cell that reads 0, or a
    timer that reads 62, afterwards already did so before). *)
Definition no_inversion (w w' : world) : Prop :=
  (IS_INVERTED (glob w) = false -> IS_INVERTED (glob w') = false) /\
  LAST_PP_STATUS (glob w') = LAST_PP_STATUS (glob w) /\
  (forall i : nat, (1 <= i <= 4)%nat ->
     ram w' !! i = Some 0 -> ram w !! i = Some 0) /\
  (ram w' !! 116%nat = Some 62 -> ram w !! 116%nat = Some 62).

(** A well-formed memory: 128 cells, each a byte. *)
Definition well_formed (w : world) : Prop :=
  length (ram w) = 128%nat /\ Forall (fun v => is_byte v = true) (ram w).

(** A computation that, on every well-formed memory and whatever the
    globals, returns normally and leaves a well-formed memory. *)
Definition total {A} (m : Py world A) : Prop :=
  forall w, well_formed w ->
    exists a w', m w = (Ret a, w') /\ well_formed w'.

(** Baseline 63, marker reading 66, timer 255, normal mode. *)
Definition marker_at_distance_3 : world :=
  mkWorld (set_LAST_PP_STATUS 63 initial_globals)
          (<[117%nat:=66]> (replicate 128 255)).

(** The start of the scenario: baseline 63, marker reading 10, timer 255,
    normal mode. *)
Definition scenario_start : world :=
  mkWorld (set_LAST_PP_STATUS 63 initial_globals)
          (<[117%nat:=10]> (replicate 128 255)).

(** ** Predicates used in further statements about [mspacman.py] *)

(** The cells the entity rules may write: state, x and y of the four
    entities, and the timer. *)
Definition entity_cells_list : list nat :=
  [1; 6; 12; 2; 7; 13; 3; 8; 14; 4; 9; 15; 116]%nat.

(** The cells each function of the module may write. *)
Definition cells_of (f : funobj) : list nat :=
  match f with
  | fn_static_ghosts => [6; 12; 7; 13; 8; 14; 9; 15]%nat
  | fn_number_power_pills => [62; 95; 117]%nat
  | fn_edible_ghosts | fn_inverted_ms_pacman | fn_inverted_ms_pacman_reset =>
      entity_cells_list
  end.

(** [m] keeps the size of the memory and writes no cell outside [cells],
    whether it returns or raises. *)
Definition writes_only {A} (cells : list nat) (m : Py world A) : Prop :=
  forall w o w', m w = (o, w') ->
    length (ram w') = length (ram w) /\
    forall j : nat, j ∉ cells -> ram w' !! j = ram w !! j.

(** The globals that only [modif_funcs] assigns: the toggles and the
    count. *)
Definition same_configuration (g g' : globals) : Prop :=
  TOGGLE_ORANGE g' = TOGGLE_ORANGE g /\ TOGGLE_CYAN g' = TOGGLE_CYAN g /\
  TOGGLE_PINK g' = TOGGLE_PINK g /\ TOGGLE_RED g' = TOGGLE_RED g /\
  NUMBER_POWER_PILLS g' = NUMBER_POWER_PILLS g.

(** [m] leaves the configuration alone, and all globals when [all] is set,
    whether it returns or raises. *)
Definition keeps_globals {A} (all : bool) (m : Py world A) : Prop :=
  forall w o w', m w = (o, w') ->
    same_configuration (glob w) (glob w') /\
    (all = true -> glob w' = glob w).

(** The functions that never assign a global. *)
Definition assigns_no_global (f : funobj) : bool :=
  match f with
  | fn_static_ghosts | fn_number_power_pills | fn_edible_ghosts => true
  | fn_inverted_ms_pacman | fn_inverted_ms_pacman_reset => false
  end.

(** What configuration may do to the globals: a toggle that is on stays on,
    the inverted-mode state is not touched, and a count within 0..4 stays
    within 0..4. *)
Definition configured_from (g g' : globals) : Prop :=
  (TOGGLE_ORANGE g = true -> TOGGLE_ORANGE g' = true) /\
  (TOGGLE_CYAN g = true -> TOGGLE_CYAN g' = true) /\
  (TOGGLE_PINK g = true -> TOGGLE_PINK g' = true) /\
  (TOGGLE_RED g = true -> TOGGLE_RED g' = true) /\
  LAST_PP_STATUS g' = LAST_PP_STATUS g /\
  IS_INVERTED g' = IS_INVERTED g /\
  (0 <= NUMBER_POWER_PILLS g <= 4 -> 0 <= NUMBER_POWER_PILLS g' <= 4).

(** What one pass of the loop of [modif_funcs] may do to the two lists:
    each grows at its end by at most one callback, of the kind that list
    can hold. *)
Definition registered_from (c c' : cfg) : Prop :=
  (step_modifs c' = step_modifs c \/
   step_modifs c' = step_modifs c ++ [fn_static_ghosts] \/
   step_modifs c' = step_modifs c ++ [fn_inverted_ms_pacman]) /\
  (reset_modifs c' = reset_modifs c \/
   reset_modifs c' = reset_modifs c ++ [fn_number_power_pills] \/
   reset_modifs c' = reset_modifs c ++ [fn_inverted_ms_pacman_reset]).

Definition is_step_callback (f : funobj) : Prop :=
  f = fn_static_ghosts \/ f = fn_inverted_ms_pacman.

Definition is_reset_callback (f : funobj) : Prop :=
  f = fn_number_power_pills \/ f = fn_inverted_ms_pacman_reset.

(** [int(c)] for one character, as a partial function. *)
Definition digit_value (c : ascii) : option Z :=
  let n := Z.of_N (N_of_ascii c) in
  if (48 <=? n) && (n <=? 57) then Some (n - 48) else None.

(** ** The shark modes of Fishing Derby (shark_modes_fishing_derby.py) *)

Module FishingDerby.

(** [SHARK_MODE] as the module sets it from the [--sharkmode] option
    (lines 46-53): a value outside 0..4 is replaced by 0. *)
Definition SHARK_MODE (sharkmode : Z) : Z :=
  if (sharkmode <? 0) || (sharkmode >? 4) then 0 else sharkmode.

(** [alter_ram] of [SharkModesFishingDerby]; the module constant
    [SHARK_MODE] is its parameter [mode].  The environment object is the
    same kind of object as for Ms. Pac-Man; the globals of the world play no
    part. *)
Definition alter_ram (mode : Z) : Py world unit :=
  when (mode >? 0)
    (when (mode =? 1) (set_ram 75 105) ;;
     when (mode =? 2) (set_ram 75 25) ;;
     when (mode =? 3)
       (current_x_position ← get_ram 75;
        when (current_x_position =? 100) (set_ram 75 25) ;;
        when (current_x_position =? 30) (set_ram 75 105)) ;;
     when (mode =? 4)
       (current_x_position ← get_ram 75;
        when (current_x_position <? 120)
          (set_ram 75 (current_x_position + 5)) ;;
        when (current_x_position >? 120) (set_ram 75 1))).

(** [_get_action]: [pressed_keys] is the listing of the set of held keys,
    in whatever order the set yields them; it is sorted and looked up as a
    tuple in [keys2actions]; 0 is NOOP. *)
Definition _get_action (keys2actions : gmap (list Z) Z)
    (pressed_keys : list Z) : Z :=
  let pressed_keys := merge_sort Z.le pressed_keys in
  match keys2actions !! pressed_keys with
  | Some action => action
  | None => 0
  end.

(** The pygame events [_handle_user_input] tells apart. *)
Inductive event : Type :=
| QUIT
| KEYDOWN (key : Z)
| KEYUP (key : Z)
| OTHER.

(** The attributes of [SharkModesFishingDerbyHuman] the handler uses;
    [env_resets] counts the calls of [self.env.reset()]. *)
Record human : Type := mkHuman {
  running : bool;
  paused : bool;
  current_keys_down : gset Z;
  current_mouse_pos : Z * Z;
  env_resets : nat
}.

(** The handler returns, or [current_keys_down.remove] raises KeyError;
    either way with the attributes as they are at that point. *)
Inductive handled : Type :=
| Handled (h : human)
| KeyError (key : Z) (h : human).

Definition state_of (r : handled) : human :=
  match r with Handled h => h | KeyError _ h => h end.

Definition is_quit (e : event) : bool :=
  match e with QUIT => true | _ => false end.

Definition is_keydown (key : Z) (e : event) : bool :=
  match e with KEYDOWN k => k =? key | _ => false end.

(** How often the key goes down in a batch of events. *)
Definition presses (key : Z) (events : list event) : nat :=
  length (List.filter (is_keydown key) events).

Section Handler.
(** [pygame.K_p], [pygame.K_r] and the key map of the environment. *)
Context (K_p K_r : Z) (keys2actions : gmap (list Z) Z).

(** [(key,) in self.keys2actions.keys()] *)
Definition is_action_key (key : Z) : bool :=
  bool_decide (is_Some (keys2actions !! [key])).

Definition handle_event (e : event) (h : human) : handled :=
  match e with
  | QUIT =>
      Handled (mkHuman false (paused h) (current_keys_down h)
                       (current_mouse_pos h) (env_resets h))
  | KEYDOWN key =>
      let h1 :=
        if key =? K_p
        then mkHuman (running h) (negb (paused h)) (current_keys_down h)
                     (current_mouse_pos h) (env_resets h)
        else h in
      if key =? K_r then
        Handled (mkHuman (running h1) (paused h1) (current_keys_down h1)
                         (current_mouse_pos h1) (S (env_resets h1)))
      else if is_action_key key then
        Handled (mkHuman (running h1) (paused h1)
                         ({[key]} ∪ current_keys_down h1)
                         (current_mouse_pos h1) (env_resets h1))
      else Handled h1
  | KEYUP key =>
      if is_action_key key then
        if bool_decide (key ∈ current_keys_down h) then
          Handled (mkHuman (running h) (paused h)
                           (current_keys_down h ∖ {[key]})
                           (current_mouse_pos h) (env_resets h))
        else KeyError key h
      else Handled h
  | OTHER => Handled h
  end.

(** [for event in events] *)
Fixpoint handle_events (events : list event) (h : human) : handled :=
  match events with
  | [] => Handled h
  | e :: rest =>
      match handle_event e h with
      | Handled h' => handle_events rest h'
      | KeyError key h' => KeyError key h'
      end
  end.

(** [_handle_user_input], given what [pygame.mouse.get_pos()] and
    [pygame.event.get()] return. *)
Definition _handle_user_input (mouse_pos : Z * Z) (events : list event)
    (h : human) : handled :=
  handle_events events
    (mkHuman (running h) (paused h) (current_keys_down h) mouse_pos
             (env_resets h)).

(** Every held key is an action key other than [K_r]. *)
Definition held_keys_ok (h : human) : Prop :=
  forall key, key ∈ current_keys_down h ->
    is_action_key key = true /\ key <> K_r.
End Handler.

End FishingDerby.

(** * Running the rules symbolically *)

Section Run.
Context {S : Type}.

Lemma run_bind {A B} (m : Py S A) (f : A -> Py S B) (s : S) :
  (m ≫= f) s =
  match m s with
  | (Ret a, s') => f a s'
  | (Raise e, s') => (Raise e, s')
  end.
Proof. reflexivity. Qed.

Lemma run_ret {A} (a : A) (s : S) : (mret a : Py S A) s = (Ret a, s).
Proof. reflexivity. Qed.

Lemma run_when_true (m : Py S unit) : when true m = m.
Proof. reflexivity. Qed.

Lemma run_when_false (m : Py S unit) (s : S) : when false m s = (Ret tt, s).
Proof. reflexivity. Qed.
End Run.

Lemma run_read_global {A} (f : globals -> A) (w : world) :
  read_global f w = (Ret (f (glob w)), w).
Proof. reflexivity. Qed.

Lemma run_write_global (f : globals -> globals) (w : world) :
  write_global f w = (Ret tt, mkWorld (f (glob w)) (ram w)).
Proof. reflexivity. Qed.

Lemma run_get_ram (i : nat) (v : Z) (w : world) :
  ram w !! i = Some v -> get_ram i w = (Ret v, w).
Proof. intros H. unfold get_ram. now rewrite H. Qed.

Lemma run_set_ram (i : nat) (v : Z) (w : world) :
  (i < length (ram w))%nat -> is_byte v = true ->
  set_ram i v w = (Ret tt, mkWorld (glob w) (<[i:=v]> (ram w))).
Proof.
  intros Hi Hv. unfold set_ram.
  apply Nat.ltb_lt in Hi. now rewrite Hi, Hv.
Qed.

(** A write to a cell that already holds the value changes nothing. *)
Lemma run_set_ram_same (i : nat) (v : Z) (w : world) :
  ram w !! i = Some v -> is_byte v = true -> set_ram i v w = (Ret tt, w).
Proof.
  intros Hl Hv. rewrite run_set_ram; [|eapply lookup_lt_Some; eauto|done].
  rewrite list_insert_id by done. now destruct w.
Qed.

(** Projections out of explicit records. *)
Ltac fields :=
  cbn [ram glob TOGGLE_ORANGE TOGGLE_CYAN TOGGLE_PINK TOGGLE_RED
       NUMBER_POWER_PILLS LAST_PP_STATUS IS_INVERTED
       set_TOGGLE_ORANGE set_TOGGLE_CYAN set_TOGGLE_PINK set_TOGGLE_RED
       set_NUMBER_POWER_PILLS set_LAST_PP_STATUS set_IS_INVERTED].

(** Side conditions of a write: the cell exists (writes keep the length). *)
Ltac ram_len := cbn [ram glob]; rewrite ?length_insert; lia.

(** One step of symbolic execution on memory whose cells all exist. *)
Ltac run_step :=
  first
    [ rewrite run_bind
    | rewrite run_ret
    | rewrite run_read_global
    | rewrite run_write_global
    | rewrite run_when_true
    | rewrite run_when_false
    | rewrite run_set_ram by (first [ram_len | reflexivity])
    | erewrite run_get_ram by (cbn [ram glob]; eassumption) ];
  cbv beta iota; fields.

(** Turning decided guards into arithmetic facts. *)
Ltac guards :=
  repeat match goal with
    | H : (_ && _)%bool = true |- _ => apply andb_true_iff in H; destruct H
    | H : (_ && _)%bool = false |- _ => apply andb_false_iff in H; destruct H
    | H : negb _ = true |- _ => apply negb_true_iff in H
    | H : negb _ = false |- _ => apply negb_false_iff in H
    | H : (_ <? _) = true |- _ => apply Z.ltb_lt in H
    | H : (_ <? _) = false |- _ => apply Z.ltb_ge in H
    | H : (_ =? _) = true |- _ => apply Z.eqb_eq in H
    | H : (_ =? _) = false |- _ => apply Z.eqb_neq in H
    end.

(** A guard that is not decided yet is split into its two cases; a case
    that contradicts what is known is dropped. *)
Ltac run_split :=
  match goal with
  | |- context [when ?b _] =>
      destruct b eqn:?; try solve [exfalso; guards; first [lia | congruence]]
  end.

Ltac run := repeat first [run_step | run_split].

(** Reading through a chain of writes. *)
Ltac ram_lookup :=
  cbn [ram glob];
  repeat first
    [ rewrite list_lookup_insert_ne by lia
    | rewrite list_lookup_insert_eq by (rewrite ?length_insert; lia) ];
  try done.

(** The four entity-state cells exist and hold some value as soon as the
    timer cell exists. *)
Lemma entity_cells (r : list Z) :
  (116 < length r)%nat ->
  exists o c p rd t,
    r !! 1%nat = Some o /\ r !! 2%nat = Some c /\ r !! 3%nat = Some p /\
    r !! 4%nat = Some rd /\ r !! 116%nat = Some t.
Proof.
  intros Hlen.
  destruct (lookup_lt_is_Some_2 r 1) as [o Ho]; [lia|].
  destruct (lookup_lt_is_Some_2 r 2) as [c Hc]; [lia|].
  destruct (lookup_lt_is_Some_2 r 3) as [p Hp]; [lia|].
  destruct (lookup_lt_is_Some_2 r 4) as [rd Hrd]; [lia|].
  destruct (lookup_lt_is_Some_2 r 116) as [t Ht]; [lia|].
  exists o, c, p, rd, t. done.
Qed.

(** * The Always-Edible Rule *)

(** C5. Timer floor: one step of [edible_ghosts] on a memory whose timer
    cell (116) holds [t] succeeds; when [t < 250] the timer cell holds 255
    afterwards, and when [250 <= t] it still holds [t]. *)
Theorem edible_ghosts_timer_floor (w : world) (t : Z) :
  ram w !! 116%nat = Some t ->
  exists w',
    edible_ghosts w = (Ret tt, w') /\
    (t < 250 -> ram w' !! 116%nat = Some 255) /\
    (250 <= t -> ram w' !! 116%nat = Some t).
Proof.
  intros Ht.
  assert (Hlen : (116 < length (ram w))%nat) by (eapply lookup_lt_Some; eauto).
  destruct (entity_cells (ram w) Hlen)
    as (o & c & p & rd & t' & Ho & Hc & Hp & Hrd & Ht').
  assert (t' = t) by congruence; subst t'; clear Ht'.
  unfold edible_ghosts, make_edible.
  run; (eexists; split; [reflexivity|]); guards;
    (split; intros; [try lia|try lia]); ram_lookup.
Qed.

Lemma edible_ghosts_timer_floor_witness :
  exists w',
    edible_ghosts (mkWorld initial_globals (replicate 128 0)) = (Ret tt, w') /\
    (0 < 250 -> ram w' !! 116%nat = Some 255) /\
    (250 <= 0 -> ram w' !! 116%nat = Some 0).
Proof.
  apply (edible_ghosts_timer_floor (mkWorld initial_globals (replicate 128 0)) 0).
  reflexivity.
Defined.

(** C6. Edibility respawn: one step of [edible_ghosts] succeeds, and every
    entity whose state cell held the consumed sentinel 112 before the step
    has state 130 and sits at its spawn coordinates afterwards (orange:
    cells 1, 6, 12; cyan: 2, 7, 13; pink: 3, 8, 14; red: 4, 9, 15). *)
Theorem edible_ghosts_respawn (w : world) :
  (116 < length (ram w))%nat ->
  exists w',
    edible_ghosts w = (Ret tt, w') /\
    (ram w !! 1%nat = Some 112 ->
     ram w' !! 1%nat = Some 130 /\ ram w' !! 6%nat = Some 120 /\
     ram w' !! 12%nat = Some 50) /\
    (ram w !! 2%nat = Some 112 ->
     ram w' !! 2%nat = Some 130 /\ ram w' !! 7%nat = Some 100 /\
     ram w' !! 13%nat = Some 50) /\
    (ram w !! 3%nat = Some 112 ->
     ram w' !! 3%nat = Some 130 /\ ram w' !! 8%nat = Some 80 /\
     ram w' !! 14%nat = Some 50) /\
    (ram w !! 4%nat = Some 112 ->
     ram w' !! 4%nat = Some 130 /\ ram w' !! 9%nat = Some 60 /\
     ram w' !! 15%nat = Some 50).
Proof.
  intros Hlen.
  destruct (entity_cells (ram w) Hlen) as (o & c & p & rd & t & Ho & Hc & Hp & Hrd & Ht).
  unfold edible_ghosts, make_edible.
  run; (eexists; split; [reflexivity|]); guards;
    rewrite Ho, Hc, Hp, Hrd;
    (split; [|split; [|split]]); intros [= ?]; try lia;
    repeat split; ram_lookup.
Qed.

Lemma edible_ghosts_respawn_witness :
  exists w',
    edible_ghosts (mkWorld initial_globals (replicate 128 112)) = (Ret tt, w') /\
    ram w' !! 1%nat = Some 130 /\ ram w' !! 6%nat = Some 120 /\
    ram w' !! 12%nat = Some 50.
Proof.
  destruct (edible_ghosts_respawn (mkWorld initial_globals (replicate 128 112)))
    as (w' & Hrun & Horange & _); [simpl; lia|].
  exists w'. split; [exact Hrun|]. apply Horange. reflexivity.
Defined.

(** * The Special-Token-Count Rule *)

(** C7. Token-count lookup: with the cells 62, 95 and 117 present, one call
    of [number_power_pills] writes the triple of the configured count to
    exactly those three cells (0: 80, 80, 0; 1: 64, 80, 8; 2: 0, 80, 40;
    3: 0, 64, 46), and for the count 4 it leaves the whole memory as it is. *)
Theorem number_power_pills_table (g : globals) (r : list Z) :
  (117 < length r)%nat ->
  let triple (a b c : Z) :=
    (Ret tt, mkWorld g (<[117%nat:=c]> (<[95%nat:=b]> (<[62%nat:=a]> r)))) in
  (NUMBER_POWER_PILLS g = 0 -> number_power_pills (mkWorld g r) = triple 80 80 0) /\
  (NUMBER_POWER_PILLS g = 1 -> number_power_pills (mkWorld g r) = triple 64 80 8) /\
  (NUMBER_POWER_PILLS g = 2 -> number_power_pills (mkWorld g r) = triple 0 80 40) /\
  (NUMBER_POWER_PILLS g = 3 -> number_power_pills (mkWorld g r) = triple 0 64 46) /\
  (NUMBER_POWER_PILLS g = 4 -> number_power_pills (mkWorld g r) = (Ret tt, mkWorld g r)).
Proof.
  intros Hlen triple. subst triple. cbv beta.
  repeat split; intros HN; unfold number_power_pills;
    run; rewrite HN; cbn [Z.eqb Pos.eqb]; run; reflexivity.
Qed.

Lemma number_power_pills_table_witness :
  number_power_pills
    (mkWorld (set_NUMBER_POWER_PILLS 3 initial_globals) (replicate 128 255)) =
  (Ret tt,
   mkWorld (set_NUMBER_POWER_PILLS 3 initial_globals)
     (<[117%nat:=46]> (<[95%nat:=64]> (<[62%nat:=0]> (replicate 128 255))))).
Proof.
  refine (proj1 (proj2 (proj2 (proj2
    (number_power_pills_table (set_NUMBER_POWER_PILLS 3 initial_globals)
       (replicate 128 255) _)))) _).
  - simpl. lia.
  - reflexivity.
Defined.

(** * The Static-Entity Suppression Rule *)

Lemma run_set_ram_cases (i : nat) (v : Z) (w : world) :
  is_byte v = true ->
  set_ram i v w =
  if Nat.ltb i (length (ram w))
  then (Ret tt, mkWorld (glob w) (<[i:=v]> (ram w)))
  else (Raise IndexError, w).
Proof. intros Hv. unfold set_ram. now rewrite Hv. Qed.

(** Execution on a memory of unknown size: a write to a cell that is known
    to hold the value already is skipped, a write to a cell known to exist
    is performed, and otherwise both outcomes of the bounds check are
    followed. *)
Ltac run_any_step :=
  first
    [ rewrite run_set_ram_same by (first [solve [ram_lookup] | reflexivity])
    | run_step
    | rewrite run_set_ram_cases by reflexivity;
      cbn [ram glob]; rewrite ?length_insert;
      match goal with
      | |- context [Nat.ltb ?i (length ?r)] =>
          destruct (Nat.ltb_spec i (length r))
      end;
      cbv beta iota; fields ].

(** C8. Idempotence: on every memory, of any size, and for every setting of
    the toggles, running [static_ghosts] twice in a row gives the same
    outcome and the same state as running it once. *)
Theorem static_ghosts_idempotent (w : world) :
  (static_ghosts ;; static_ghosts) w = static_ghosts w.
Proof.
  destruct w as [[o c p rd n l inv] r].
  unfold static_ghosts.
  destruct o, c, p, rd; repeat run_any_step; reflexivity.
Qed.

(** * Inverted mode *)


(** Both loops run their body for [i = 1, 2, 3, 4] and then stop. *)
Lemma inverted_power_pill_loop_unroll :
  inverted_power_pill_loop 1 =
  (set_ram 1 0 ;; set_ram 2 0 ;; set_ram 3 0 ;; set_ram 4 0 ;; mret tt).
Proof. reflexivity. Qed.

Lemma power_pill_is_done_loop_unroll :
  power_pill_is_done_loop 1 =
  (set_ram 1 130 ;; set_ram 2 130 ;; set_ram 3 130 ;; set_ram 4 130 ;; mret tt).
Proof. reflexivity. Qed.

Ltac unfold_inverted :=
  unfold inverted_ms_pacman, inverted_power_pill, power_pill_is_done,
    make_edible;
  rewrite inverted_power_pill_loop_unroll, power_pill_is_done_loop_unroll.

(** C1, as amended. Marker tolerance: when the marker reading [m] is
    strictly less than 3 away from the recorded marker, one step of
    [inverted_ms_pacman] succeeds and does not enter inverted mode: it makes
    no switch from normal to inverted, keeps the recorded marker, sets no
    entity cell to 0 and does not set the timer to 62. *)
Theorem marker_tolerance (w : world) (m : Z) :
  ram w !! 117%nat = Some m ->
  Z.abs (m - LAST_PP_STATUS (glob w)) < 3 ->
  exists w', inverted_ms_pacman w = (Ret tt, w') /\ no_inversion w w'.
Proof.
  intros Hm Hwin.
  assert (Hlen : (117 < length (ram w))%nat) by (eapply lookup_lt_Some; eauto).
  destruct (entity_cells (ram w))
    as (o & c & p & rd & t & Ho & Hc & Hp & Hrd & Ht); [lia|].
  destruct w as [[to tc tp tr n l inv] r].
  cbn [ram glob LAST_PP_STATUS] in *.
  unfold_inverted.
  run.
  all: eexists; (split; [reflexivity|]); unfold no_inversion; fields.
  all: split; [done|split; [done|split]].
  all: try (intros i Hi;
            assert (i = 1 \/ i = 2 \/ i = 3 \/ i = 4)%nat
              as [->|[->|[->| ->]]] by lia).
  all: ram_lookup.
  all: guards; try congruence; try lia.
Qed.

Lemma marker_tolerance_witness :
  exists w',
    inverted_ms_pacman
      (mkWorld (set_LAST_PP_STATUS 63 initial_globals)
               (<[117%nat:=65]> (replicate 128 255))) = (Ret tt, w') /\
    no_inversion
      (mkWorld (set_LAST_PP_STATUS 63 initial_globals)
               (<[117%nat:=65]> (replicate 128 255))) w'.
Proof.
  apply (marker_tolerance
           (mkWorld (set_LAST_PP_STATUS 63 initial_globals)
                    (<[117%nat:=65]> (replicate 128 255))) 65).
  - reflexivity.
  - simpl. lia.
Defined.

(** C1, as stated, fails: a marker reading exactly 3 away from the recorded
    marker (66 against 63) is outside the open window of the code, and the
    step does enter inverted mode. *)
Lemma marker_tolerance_fails_at_distance_3 :
  ~ (forall (w : world) (m : Z),
       ram w !! 117%nat = Some m ->
       Z.abs (m - LAST_PP_STATUS (glob w)) <= 3 ->
       exists w', inverted_ms_pacman w = (Ret tt, w') /\ no_inversion w w').
Proof.
  intros H.
  destruct (H marker_at_distance_3 66) as (w' & Hrun & Hinv & _).
  - reflexivity.
  - vm_compute. discriminate.
  - vm_compute in Hrun. injection Hrun as <-.
    specialize (Hinv eq_refl). discriminate.
Qed.

(** What the step does at that reading: inverted mode is entered, the
    recorded marker becomes 66, the entity cells are 0 and the timer is 62. *)
Example marker_at_distance_3_step :
  exists w',
    inverted_ms_pacman marker_at_distance_3 = (Ret tt, w') /\
    IS_INVERTED (glob w') = true /\
    LAST_PP_STATUS (glob w') = 66 /\
    ram w' !! 1%nat = Some 0 /\ ram w' !! 2%nat = Some 0 /\
    ram w' !! 3%nat = Some 0 /\ ram w' !! 4%nat = Some 0 /\
    ram w' !! 116%nat = Some 62.
Proof. eexists. vm_compute. repeat split. Qed.

(** C4. Transition scenario: from normal mode with recorded marker 63 and
    timer 255, a step that reads the marker 10 succeeds, enters inverted
    mode, sets the entity cells 1-4 to 0 and the timer cell to 62, and
    records the marker 10.  From the globals so reached, a step on any
    memory whose timer cell reads 0 succeeds, returns to normal mode, sets
    the entity cells to 130 and the timer cell to 190; the recorded marker
    stays 10 when the marker read is within the window of 10. *)
Theorem inverted_transition_scenario (w : world) :
  (117 < length (ram w))%nat ->
  IS_INVERTED (glob w) = false ->
  LAST_PP_STATUS (glob w) = 63 ->
  ram w !! 116%nat = Some 255 ->
  ram w !! 117%nat = Some 10 ->
  exists w1,
    inverted_ms_pacman w = (Ret tt, w1) /\
    IS_INVERTED (glob w1) = true /\
    LAST_PP_STATUS (glob w1) = 10 /\
    ram w1 !! 1%nat = Some 0 /\ ram w1 !! 2%nat = Some 0 /\
    ram w1 !! 3%nat = Some 0 /\ ram w1 !! 4%nat = Some 0 /\
    ram w1 !! 116%nat = Some 62 /\
    forall (r2 : list Z) (m2 : Z),
      (117 < length r2)%nat ->
      r2 !! 116%nat = Some 0 ->
      r2 !! 117%nat = Some m2 ->
      exists w2,
        inverted_ms_pacman (mkWorld (glob w1) r2) = (Ret tt, w2) /\
        IS_INVERTED (glob w2) = false /\
        ram w2 !! 1%nat = Some 130 /\ ram w2 !! 2%nat = Some 130 /\
        ram w2 !! 3%nat = Some 130 /\ ram w2 !! 4%nat = Some 130 /\
        ram w2 !! 116%nat = Some 190 /\
        (Z.abs (m2 - 10) < 3 -> LAST_PP_STATUS (glob w2) = 10).
Proof.
  intros Hlen Hinv Hlast Ht Hm.
  destruct (entity_cells (ram w))
    as (o & c & p & rd & t & Ho & Hc & Hp & Hrd & Ht'); [lia|].
  assert (t = 255) by congruence; subst t; clear Ht'.
  destruct w as [[to tc tp tr n l inv] r].
  cbn [ram glob LAST_PP_STATUS IS_INVERTED] in *.
  subst l inv.
  unfold_inverted.
  run.
  all: eexists; (split; [reflexivity|]); fields.
  all: repeat (split; [solve [ram_lookup]|]).
  all: clear dependent r.
  all: intros r2 m2 Hlen2 Ht2 Hm2.
  all: destruct (entity_cells r2)
         as (o2 & c2 & p2 & rd2 & t2 & Ho2 & Hc2 & Hp2 & Hrd2 & Ht2'); [lia|].
  all: assert (t2 = 0) by congruence; subst t2; clear Ht2'.
  all: run.
  all: eexists; (split; [reflexivity|]); fields.
  all: repeat (split; [solve [ram_lookup]|]).
  all: first [intros _; reflexivity | intros; exfalso; guards; lia].
Qed.

Lemma inverted_transition_scenario_witness :
  exists w1,
    inverted_ms_pacman scenario_start = (Ret tt, w1) /\
    IS_INVERTED (glob w1) = true /\
    LAST_PP_STATUS (glob w1) = 10 /\
    ram w1 !! 1%nat = Some 0 /\ ram w1 !! 2%nat = Some 0 /\
    ram w1 !! 3%nat = Some 0 /\ ram w1 !! 4%nat = Some 0 /\
    ram w1 !! 116%nat = Some 62 /\
    forall (r2 : list Z) (m2 : Z),
      (117 < length r2)%nat ->
      r2 !! 116%nat = Some 0 ->
      r2 !! 117%nat = Some m2 ->
      exists w2,
        inverted_ms_pacman (mkWorld (glob w1) r2) = (Ret tt, w2) /\
        IS_INVERTED (glob w2) = false /\
        ram w2 !! 1%nat = Some 130 /\ ram w2 !! 2%nat = Some 130 /\
        ram w2 !! 3%nat = Some 130 /\ ram w2 !! 4%nat = Some 130 /\
        ram w2 !! 116%nat = Some 190 /\
        (Z.abs (m2 - 10) < 3 -> LAST_PP_STATUS (glob w2) = 10).
Proof.
  apply (inverted_transition_scenario scenario_start).
  - simpl. lia.
  - reflexivity.
  - reflexivity.
  - reflexivity.
  - reflexivity.
Defined.

(** * Totality of the per-frame rules *)

Section Total.
Lemma total_ret {A} (a : A) : total (mret a).
Proof. intros w Hw. exists a, w. done. Qed.

Lemma total_bind {A B} (m : Py world A) (f : A -> Py world B) :
  total m -> (forall a, total (f a)) -> total (m ≫= f).
Proof.
  intros Hm Hf w Hw.
  destruct (Hm w Hw) as (a & w1 & Hrun & Hw1).
  rewrite run_bind, Hrun. apply Hf, Hw1.
Qed.

Lemma total_when (b : bool) (m : Py world unit) :
  total m -> total (when b m).
Proof. destruct b; [done | intros _; apply total_ret]. Qed.

Lemma total_read_global {A} (f : globals -> A) : total (read_global f).
Proof. intros w Hw. exists (f (glob w)), w. done. Qed.

Lemma total_write_global (f : globals -> globals) : total (write_global f).
Proof. intros w Hw. exists tt, (mkWorld (f (glob w)) (ram w)). done. Qed.

Lemma total_get_ram (i : nat) : (i < 128)%nat -> total (get_ram i).
Proof.
  intros Hi w [Hlen Hb].
  destruct (lookup_lt_is_Some_2 (ram w) i) as [v Hv]; [lia|].
  exists v, w. split; [now apply run_get_ram | done].
Qed.

Lemma total_set_ram (i : nat) (v : Z) :
  (i < 128)%nat -> is_byte v = true -> total (set_ram i v).
Proof.
  intros Hi Hv w [Hlen Hb].
  eexists tt, _. split; [apply run_set_ram; [lia | done]|].
  split; cbn [ram]; [now rewrite length_insert | now apply Forall_insert].
Qed.
End Total.

Create HintDb total.

#[local] Hint Resolve total_ret total_when total_read_global
  total_write_global : total.
#[local] Hint Extern 1 (total (_ ≫= _)) => apply total_bind; [|intros ?] : total.
#[local] Hint Extern 1 (total (get_ram _)) => apply total_get_ram; lia : total.
#[local] Hint Extern 1 (total (set_ram _ _)) =>
  apply total_set_ram; [lia | reflexivity] : total.

Lemma total_make_edible (k : nat) (x : Z) (rx : nat) (y : Z) (ry : nat) :
  (k < 128)%nat -> (rx < 128)%nat -> (ry < 128)%nat ->
  is_byte x = true -> is_byte y = true ->
  total (make_edible k x rx y ry).
Proof.
  intros. unfold make_edible.
  repeat (apply total_bind; [|intros ?]); apply total_set_ram; auto.
Qed.

(** The loops, by induction along their own recursion: whatever [i] they
    are started from, they return. *)
Lemma total_inverted_power_pill_loop (i : nat) :
  total (inverted_power_pill_loop i).
Proof.
  funelim (inverted_power_pill_loop i).
  - apply total_bind; [apply total_set_ram; [lia | reflexivity]|].
    intros []. intros w. apply (H tt w).
  - apply total_ret.
Qed.

Lemma total_power_pill_is_done_loop (i : nat) :
  total (power_pill_is_done_loop i).
Proof.
  funelim (power_pill_is_done_loop i).
  - apply total_bind; [apply total_set_ram; [lia | reflexivity]|].
    intros []. intros w. apply (H tt w).
  - apply total_ret.
Qed.

#[local] Hint Resolve total_inverted_power_pill_loop
  total_power_pill_is_done_loop : total.
#[local] Hint Extern 1 (total (make_edible _ _ _ _ _)) =>
  apply total_make_edible; [lia | lia | lia | reflexivity | reflexivity] : total.

Lemma total_static_ghosts : total static_ghosts.
Proof. unfold static_ghosts. auto 30 with total. Qed.

Lemma total_edible_ghosts : total edible_ghosts.
Proof. unfold edible_ghosts. auto 30 with total. Qed.

Lemma total_inverted_ms_pacman : total inverted_ms_pacman.
Proof.
  unfold inverted_ms_pacman, inverted_power_pill, power_pill_is_done.
  auto 40 with total.
Qed.

(** C10. Per-frame rule totality: on every well-formed memory (128 cells,
    each a byte) and whatever the globals hold, one call of [static_ghosts],
    of [edible_ghosts] and of [inverted_ms_pacman] returns normally (the
    loops over the four entities, defined by recursion on [5 - i], end), and
    the memory it leaves is well-formed again. *)
Theorem per_frame_rules_total (w : world) :
  well_formed w ->
  (exists w', static_ghosts w = (Ret tt, w') /\ well_formed w') /\
  (exists w', edible_ghosts w = (Ret tt, w') /\ well_formed w') /\
  (exists w', inverted_ms_pacman w = (Ret tt, w') /\ well_formed w').
Proof.
  intros Hw. repeat split.
  - destruct (total_static_ghosts w Hw) as ([] & w' & ?). eauto.
  - destruct (total_edible_ghosts w Hw) as ([] & w' & ?). eauto.
  - destruct (total_inverted_ms_pacman w Hw) as ([] & w' & ?). eauto.
Qed.

Lemma per_frame_rules_total_witness :
  (exists w', static_ghosts (mkWorld initial_globals (replicate 128 0)) =
              (Ret tt, w') /\ well_formed w') /\
  (exists w', edible_ghosts (mkWorld initial_globals (replicate 128 0)) =
              (Ret tt, w') /\ well_formed w') /\
  (exists w', inverted_ms_pacman (mkWorld initial_globals (replicate 128 0)) =
              (Ret tt, w') /\ well_formed w').
Proof.
  apply (per_frame_rules_total (mkWorld initial_globals (replicate 128 0))).
  split.
  - reflexivity.
  - apply Forall_replicate. reflexivity.
Defined.

(** The hypothesis on the size is needed: on a memory of 100 cells the timer
    cell does not exist and the rule raises. *)
Example edible_ghosts_short_memory :
  edible_ghosts (mkWorld initial_globals (replicate 100 0)) =
  (Raise IndexError, mkWorld initial_globals (replicate 100 0)).
Proof. reflexivity. Qed.

(** * Properties of the registry *)

Lemma for_each_app {S A} (l1 l2 : list A) (body : A -> Py S unit) (s : S) :
  for_each (l1 ++ l2) body s =
  (for_each l1 body ;; for_each l2 body) s.
Proof.
  revert s. induction l1 as [|x l1 IH]; intros s; cbn [for_each app].
  - reflexivity.
  - rewrite !run_bind. destruct (body x s) as [[[]|e] s1]; [|reflexivity].
    rewrite IH. reflexivity.
Qed.

Lemma unknown_name_body (s : string) (c : cfg) :
  known_name s = false -> String.prefix "power" s = false ->
  modif_funcs_body (PyStr s) c = (Ret tt, c).
Proof.
  unfold known_name, known_names. cbn [existsb].
  intros Hk Hp.
  repeat (apply orb_false_elim in Hk; destruct Hk as [? Hk]).
  unfold modif_funcs_body. cbn [py_eq startswith].
  repeat match goal with H : String.eqb _ _ = false |- _ => rewrite H; clear H end.
  rewrite run_bind, run_ret, Hp. reflexivity.
Qed.

(** C2, as amended. Unknown-name tolerance: a name that is none of the
    known names and does not start with [power] is ignored.  The loop body
    returns normally and leaves the globals and both callback lists as they
    were; a list of names with the name in it configures exactly as the
    list without it; and the name alone yields two empty callback lists. *)
Theorem unknown_name_ignored (s : string) :
  known_name s = false ->
  String.prefix "power" s = false ->
  (forall c, modif_funcs_body (PyStr s) c = (Ret tt, c)) /\
  (forall pre post g,
     modif_funcs (pre ++ PyStr s :: post) g = modif_funcs (pre ++ post) g) /\
  (forall g, modif_funcs [PyStr s] g = (Ret ([], []), g)).
Proof.
  intros Hk Hp.
  assert (Hbody := fun c => unknown_name_body s c Hk Hp).
  split; [exact Hbody|]. split.
  - intros pre post g. unfold modif_funcs.
    rewrite !for_each_app, !run_bind.
    destruct (for_each pre modif_funcs_body _) as [[[]|e] c1]; [|reflexivity].
    cbn [for_each]. rewrite run_bind, Hbody. reflexivity.
  - intros g. unfold modif_funcs. cbn [for_each].
    rewrite run_bind, Hbody. reflexivity.
Qed.

(** In particular, for the name [nonexistent_mod]. *)
Lemma unknown_name_ignored_witness :
  modif_funcs [PyStr "nonexistent_mod"] initial_globals =
  (Ret ([], []), initial_globals).
Proof.
  apply (unknown_name_ignored "nonexistent_mod"); reflexivity.
Defined.

(** C2, as stated, fails: [powerful] is none of the known names and none of
    the names [powerN], yet it starts with [power], so the code takes it
    for a power-pill-count name and [int] raises on its last character. *)
Lemma unknown_name_tolerance_fails_for_powerful :
  ~ (forall s : string,
       known_name s = false ->
       spec_power_family s = false ->
       forall g, modif_funcs [PyStr s] g = (Ret ([], []), g)).
Proof.
  intros H.
  specialize (H "powerful"%string eq_refl eq_refl initial_globals).
  vm_compute in H. discriminate H.
Qed.

(** C3. Configuration validation: for the name [power5] the loop body
    raises the ValueError of the range check and leaves the globals and both
    callback lists untouched, so [modif_funcs] fails with nothing
    registered.  For [power2] it succeeds, sets the count to 2 and returns
    [number_power_pills] as the only reset callback; calling that callback
    on a memory that has the cells writes 0 to cell 62, 80 to cell 95 and
    40 to cell 117. *)
Theorem power_pill_count_validation (g : globals) (r : list Z) :
  (117 < length r)%nat ->
  (forall c,
     modif_funcs_body (PyStr "power5") c =
     (Raise (ValueError "Invalid Number of Power Pills"), c)) /\
  modif_funcs [PyStr "power5"] g =
    (Raise (ValueError "Invalid Number of Power Pills"), g) /\
  modif_funcs [PyStr "power2"] g =
    (Ret ([], [fn_number_power_pills]), set_NUMBER_POWER_PILLS 2 g) /\
  NUMBER_POWER_PILLS (set_NUMBER_POWER_PILLS 2 g) = 2 /\
  call fn_number_power_pills (mkWorld (set_NUMBER_POWER_PILLS 2 g) r) =
    (Ret tt,
     mkWorld (set_NUMBER_POWER_PILLS 2 g)
       (<[117%nat:=40]> (<[95%nat:=80]> (<[62%nat:=0]> r)))).
Proof.
  intros Hlen. split; [|split; [|split; [|split]]]; try reflexivity.
  cbn [call]. unfold number_power_pills. run.
  cbn [Z.eqb Pos.eqb]. run. reflexivity.
Qed.

Lemma power_pill_count_validation_witness :
  call fn_number_power_pills
    (mkWorld (set_NUMBER_POWER_PILLS 2 initial_globals) (replicate 128 255)) =
  (Ret tt,
   mkWorld (set_NUMBER_POWER_PILLS 2 initial_globals)
     (<[117%nat:=40]> (<[95%nat:=80]> (<[62%nat:=0]> (replicate 128 255))))).
Proof.
  apply (power_pill_count_validation initial_globals (replicate 128 255)).
  simpl. lia.
Defined.

(** What one name can do to the list of step callbacks. *)
Lemma body_step_modifs (s : string) (c c' : cfg) (o : outcome unit) :
  modif_funcs_body (PyStr s) c = (o, c') ->
  step_modifs c' = step_modifs c \/
  step_modifs c' = step_modifs c ++ [fn_static_ghosts] \/
  step_modifs c' = step_modifs c ++ [fn_inverted_ms_pacman].
Proof.
  unfold modif_funcs_body. cbn [py_eq startswith index_last].
  repeat (match goal with
          | |- context [if String.eqb ?a ?b then _ else _] =>
              destruct (String.eqb a b)
          end; [intros [= <- <-]; cbn; auto|]).
  rewrite run_bind, run_ret.
  destruct (String.prefix "power" s).
  - rewrite run_bind. destruct (last_char s) as [ch|]; [|intros [= <- <-]; auto].
    rewrite run_ret, run_bind. unfold int_of_char.
    destruct (_ && _)%bool; [|intros [= <- <-]; auto].
    rewrite run_ret.
    destruct (_ || _)%bool; intros [= <- <-]; cbn; auto.
  - cbn [funobj_eqb].
    destruct (String.eqb s "inverted"); intros [= <- <-]; cbn; auto.
Qed.

Lemma for_each_no_edible (names : list string) (c c' : cfg) (o : outcome unit) :
  for_each (map PyStr names) modif_funcs_body c = (o, c') ->
  fn_edible_ghosts ∉ step_modifs c ->
  fn_edible_ghosts ∉ step_modifs c'.
Proof.
  revert c. induction names as [|s names IH]; intros c; cbn [map for_each].
  - intros [= <- <-]. done.
  - rewrite run_bind.
    destruct (modif_funcs_body (PyStr s) c) as [o1 c1] eqn:Hbody.
    apply body_step_modifs in Hbody.
    intros Hrun Hc.
    assert (fn_edible_ghosts ∉ step_modifs c1) as Hc1.
    { destruct Hbody as [-> | [-> | ->]]; [done| |];
        rewrite not_elem_of_app; (split; [done|]);
        rewrite list_elem_of_singleton; discriminate. }
    destruct o1 as [[]|e]; [eapply IH; eauto|].
    injection Hrun as <- <-. done.
Qed.

(** C9. The branch [mod == edible_ghosts] is dead for strings: whatever
    list of strings is configured, when [modif_funcs] returns, the
    step-callback list does not contain [edible_ghosts]. *)
Theorem edible_ghosts_unreachable (names : list string) (g g' : globals)
    (steps resets : list funobj) :
  modif_funcs (map PyStr names) g = (Ret (steps, resets), g') ->
  fn_edible_ghosts ∉ steps.
Proof.
  unfold modif_funcs.
  destruct (for_each _ _ _) as [[[]|e] c'] eqn:Hrun; [|discriminate].
  intros [= <- <- <-].
  eapply for_each_no_edible; [exact Hrun|].
  cbn. apply not_elem_of_nil.
Qed.

Lemma edible_ghosts_unreachable_witness :
  fn_edible_ghosts ∉ [fn_static_ghosts; fn_inverted_ms_pacman].
Proof.
  apply (edible_ghosts_unreachable
           ["edible_ghosts"; "caged_ghosts"; "inverted"]%string
           initial_globals
           (set_TOGGLE_PINK true (set_TOGGLE_RED true
              (set_TOGGLE_ORANGE true (set_TOGGLE_CYAN true initial_globals))))
           _ [fn_inverted_ms_pacman_reset]).
  reflexivity.
Defined.

(** Even the name [edible_ghosts] itself is ignored. *)
Example edible_ghosts_by_name :
  modif_funcs [PyStr "edible_ghosts"] initial_globals =
  (Ret ([], []), initial_globals).
Proof. reflexivity. Qed.

(** Passing the function object does not reach the branch either:
    [startswith] is looked up on it first. *)
Example edible_ghosts_by_object :
  modif_funcs [PyFunc fn_edible_ghosts] initial_globals =
  (Raise AttributeError, initial_globals).
Proof. reflexivity. Qed.

(** A name that starts with [power] but does not end in a digit fails in
    [int], with the toggles set so far left set. *)
Example power_without_digit :
  modif_funcs [PyStr "disable_red"; PyStr "powerful"] initial_globals =
  (Raise (ValueError "invalid literal for int() with base 10"),
   set_TOGGLE_RED true initial_globals).
Proof. reflexivity. Qed.

(** * Further properties of the Ms. Pac-Man rules *)

(** ** What the functions never write *)

Section Frame.
Context (cells : list nat).

Lemma writes_only_ret {A} (a : A) : writes_only cells (mret a).
Proof. intros w o w' [= <- <-]. done. Qed.

Lemma writes_only_bind {A B} (m : Py world A) (f : A -> Py world B) :
  writes_only cells m -> (forall a, writes_only cells (f a)) ->
  writes_only cells (m ≫= f).
Proof.
  intros Hm Hf w o w'. rewrite run_bind.
  destruct (m w) as [[a|e] w1] eqn:Hrun; destruct (Hm _ _ _ Hrun) as [Hl Hj].
  - intros Hrun2. destruct (Hf a _ _ _ Hrun2) as [Hl2 Hj2].
    split; [congruence|]. intros j Hc. rewrite Hj2, Hj; done.
  - intros [= <- <-]. done.
Qed.

Lemma writes_only_when (b : bool) (m : Py world unit) :
  writes_only cells m -> writes_only cells (when b m).
Proof. destruct b; [done | intros _; apply writes_only_ret]. Qed.

Lemma writes_only_read_global {A} (f : globals -> A) :
  writes_only cells (read_global f).
Proof. intros w o w' [= <- <-]. done. Qed.

Lemma writes_only_write_global (f : globals -> globals) :
  writes_only cells (write_global f).
Proof. intros w o w' [= <- <-]. done. Qed.

Lemma writes_only_get_ram (i : nat) : writes_only cells (get_ram i).
Proof.
  intros w o w'. unfold get_ram. destruct (ram w !! i); intros [= <- <-]; done.
Qed.

Lemma writes_only_set_ram (i : nat) (v : Z) :
  i ∈ cells -> writes_only cells (set_ram i v).
Proof.
  intros Hi w o w'. unfold set_ram.
  destruct (Nat.ltb i (length (ram w))); [|intros [= <- <-]; done].
  destruct (is_byte v); intros [= <- <-]; [|done].
  cbn [ram]. split; [apply length_insert|].
  intros j Hj. apply list_lookup_insert_ne. intros ->. done.
Qed.
End Frame.

Create HintDb frame.
#[local] Hint Resolve writes_only_ret writes_only_when writes_only_read_global
  writes_only_write_global writes_only_get_ram : frame.
#[local] Hint Extern 1 (writes_only _ (_ ≫= _)) =>
  apply writes_only_bind; [|intros ?] : frame.
#[local] Hint Extern 1 (writes_only _ (set_ram _ _)) =>
  apply writes_only_set_ram; repeat constructor : frame.
#[local] Hint Extern 1 (writes_only _ (if ?b then _ else _)) =>
  destruct b : frame.

Lemma writes_only_call (f : funobj) : writes_only (cells_of f) (call f).
Proof.
  destruct f; cbn [call cells_of]; unfold entity_cells_list.
  - unfold static_ghosts. auto 40 with frame.
  - unfold number_power_pills. auto 40 with frame.
  - unfold edible_ghosts, make_edible. auto 60 with frame.
  - unfold_inverted. auto 80 with frame.
  - unfold inverted_ms_pacman_reset, set_start_condition, make_edible.
    auto 60 with frame.
Qed.

(** X1. Whatever the memory and the globals, and whether it returns or
    raises, a function of the module keeps the size of the memory and
    leaves every cell outside its own cells as it was: [static_ghosts]
    writes only the position cells 6-9 and 12-15, [number_power_pills]
    only 62, 95 and 117, and [edible_ghosts], [inverted_ms_pacman] and
    [inverted_ms_pacman_reset] only the entity cells 1-4, 6-9, 12-15 and
    the timer 116 (so never the marker cell 117). *)
Theorem callbacks_write_only_their_cells (f : funobj) (w w' : world)
    (o : outcome unit) :
  call f w = (o, w') ->
  length (ram w') = length (ram w) /\
  forall j : nat, j ∉ cells_of f -> ram w' !! j = ram w !! j.
Proof. apply writes_only_call. Qed.

Lemma callbacks_write_only_their_cells_witness :
  length (ram (mkWorld initial_globals (<[116%nat:=255]> (replicate 128 0)))) =
  length (ram (mkWorld initial_globals (replicate 128 0))) /\
  forall j : nat, j ∉ cells_of fn_edible_ghosts ->
    ram (mkWorld initial_globals (<[116%nat:=255]> (replicate 128 0))) !! j =
    ram (mkWorld initial_globals (replicate 128 0)) !! j.
Proof.
  apply (callbacks_write_only_their_cells fn_edible_ghosts
           (mkWorld initial_globals (replicate 128 0))
           (mkWorld initial_globals (<[116%nat:=255]> (replicate 128 0)))
           (Ret tt)).
  reflexivity.
Defined.

Section Globals.
Context (all : bool).

Lemma same_configuration_refl (g : globals) : same_configuration g g.
Proof. unfold same_configuration. tauto. Qed.

Lemma keeps_globals_ret {A} (a : A) : keeps_globals all (mret a).
Proof.
  intros w o w' [= <- <-]. split; [apply same_configuration_refl | done].
Qed.

Lemma keeps_globals_bind {A B} (m : Py world A) (f : A -> Py world B) :
  keeps_globals all m -> (forall a, keeps_globals all (f a)) ->
  keeps_globals all (m ≫= f).
Proof.
  intros Hm Hf w o w'. rewrite run_bind.
  destruct (m w) as [[a|e] w1] eqn:Hrun; destruct (Hm _ _ _ Hrun) as [Hc Hg].
  - intros Hrun2. destruct (Hf a _ _ _ Hrun2) as [Hc2 Hg2].
    split.
    + unfold same_configuration in *.
      destruct Hc as (?&?&?&?&?), Hc2 as (?&?&?&?&?).
      repeat split; congruence.
    + intros Hall. rewrite Hg2, Hg; done.
  - intros [= <- <-]. done.
Qed.

Lemma keeps_globals_when (b : bool) (m : Py world unit) :
  keeps_globals all m -> keeps_globals all (when b m).
Proof. destruct b; [done | intros _; apply keeps_globals_ret]. Qed.

Lemma keeps_globals_read_global {A} (f : globals -> A) :
  keeps_globals all (read_global f).
Proof.
  intros w o w' [= <- <-]. split; [apply same_configuration_refl | done].
Qed.

Lemma keeps_globals_get_ram (i : nat) : keeps_globals all (get_ram i).
Proof.
  intros w o w'. unfold get_ram.
  destruct (ram w !! i); intros [= <- <-];
    (split; [apply same_configuration_refl | done]).
Qed.

Lemma keeps_globals_set_ram (i : nat) (v : Z) :
  keeps_globals all (set_ram i v).
Proof.
  intros w o w'. unfold set_ram.
  destruct (Nat.ltb i (length (ram w))); [destruct (is_byte v)|];
    intros [= <- <-]; (split; [apply same_configuration_refl | done]).
Qed.
End Globals.

(** The two globals the inverted-mode functions assign are not part of the
    configuration. *)
Lemma keeps_globals_set_LAST_PP_STATUS (n : Z) :
  keeps_globals false (write_global (set_LAST_PP_STATUS n)).
Proof. intros w o w' [= <- <-]. split; [|done]. repeat split. Qed.

Lemma keeps_globals_set_IS_INVERTED (b : bool) :
  keeps_globals false (write_global (set_IS_INVERTED b)).
Proof. intros w o w' [= <- <-]. split; [|done]. repeat split. Qed.

#[local] Hint Resolve keeps_globals_ret keeps_globals_when
  keeps_globals_read_global keeps_globals_get_ram keeps_globals_set_ram
  keeps_globals_set_LAST_PP_STATUS keeps_globals_set_IS_INVERTED : frame.
#[local] Hint Extern 1 (keeps_globals _ (_ ≫= _)) =>
  apply keeps_globals_bind; [|intros ?] : frame.
#[local] Hint Extern 1 (keeps_globals _ (if ?b then _ else _)) =>
  destruct b : frame.

Lemma keeps_globals_call (f : funobj) :
  keeps_globals (assigns_no_global f) (call f).
Proof.
  destruct f; cbn [call assigns_no_global].
  - unfold static_ghosts. auto 40 with frame.
  - unfold number_power_pills. auto 40 with frame.
  - unfold edible_ghosts, make_edible. auto 60 with frame.
  - unfold_inverted. auto 80 with frame.
  - unfold inverted_ms_pacman_reset, set_start_condition, make_edible.
    auto 60 with frame.
Qed.

(** X2. No function of the module changes the configuration: the four
    toggles and the power-pill count are the same after a call as before,
    whether it returns or raises; [static_ghosts], [number_power_pills] and
    [edible_ghosts] change no global at all. *)
Theorem callbacks_keep_configuration (f : funobj) (w w' : world)
    (o : outcome unit) :
  call f w = (o, w') ->
  same_configuration (glob w) (glob w') /\
  (assigns_no_global f = true -> glob w' = glob w).
Proof. apply keeps_globals_call. Qed.

Lemma callbacks_keep_configuration_witness :
  exists w',
    call fn_inverted_ms_pacman scenario_start = (Ret tt, w') /\
    same_configuration (glob scenario_start) (glob w').
Proof.
  eexists. split; [reflexivity|].
  refine (proj1 (callbacks_keep_configuration fn_inverted_ms_pacman
                   scenario_start _ (Ret tt) _)).
  reflexivity.
Defined.

(** ** Running a rule again, and running it on a short memory *)

Lemma run_get_ram_none (i : nat) (w : world) :
  (length (ram w) <= i)%nat -> get_ram i w = (Raise IndexError, w).
Proof.
  intros H. unfold get_ram. now rewrite (lookup_ge_None_2 (ram w) i H).
Qed.

(** A read of a cell that was written earlier in the same run. *)
Ltac run_read :=
  erewrite run_get_ram by (ram_lookup; eassumption);
  cbv beta iota; fields.

(** Splitting an open guard; a guard that is already [true] or [false] is
    left to the rewriting steps. *)
Ltac run_split_open :=
  match goal with
  | |- context [when ?b _] =>
      lazymatch b with
      | true => fail
      | false => fail
      | _ => destruct b eqn:?;
             try solve [exfalso; guards; first [lia | congruence]]
      end
  end.

Ltac run_again := repeat first [run_step | run_read | run_split_open].

(** X3. The Always-Edible Rule is idempotent: on every memory, of any
    size, running [edible_ghosts] twice in a row gives the same outcome and
    the same state as running it once (after one run the timer is at least
    250 and no entity is in the consumed state). *)
Theorem edible_ghosts_idempotent (w : world) :
  (edible_ghosts ;; edible_ghosts) w = edible_ghosts w.
Proof.
  rewrite run_bind.
  destruct (le_lt_dec (length (ram w)) 116) as [Hshort|Hlen].
  - unfold edible_ghosts. rewrite run_bind, run_get_ram_none by lia.
    reflexivity.
  - destruct (entity_cells (ram w) Hlen)
      as (o & c & p & rd & t & Ho & Hc & Hp & Hrd & Ht).
    unfold edible_ghosts, make_edible.
    run_again; reflexivity.
Qed.

(** X4. [edible_ghosts] is all-or-nothing: when it raises, the error is an
    IndexError, the memory has no timer cell (at most 116 cells), and
    neither the memory nor the globals were changed. *)
Theorem edible_ghosts_all_or_nothing (w w' : world) (e : exn) :
  edible_ghosts w = (Raise e, w') ->
  e = IndexError /\ w' = w /\ (length (ram w) <= 116)%nat.
Proof.
  destruct (le_lt_dec (length (ram w)) 116) as [Hshort|Hlen].
  - unfold edible_ghosts. rewrite run_bind, run_get_ram_none by lia.
    intros [= <- <-]. done.
  - destruct (edible_ghosts_respawn w Hlen) as (w1 & Hrun & _).
    rewrite Hrun. discriminate.
Qed.

Lemma edible_ghosts_all_or_nothing_witness :
  IndexError = IndexError /\
  mkWorld initial_globals (replicate 100 0) =
  mkWorld initial_globals (replicate 100 0) /\
  (length (ram (mkWorld initial_globals (replicate 100 0%Z))) <= 116)%nat.
Proof.
  apply (edible_ghosts_all_or_nothing
           (mkWorld initial_globals (replicate 100 0))
           (mkWorld initial_globals (replicate 100 0)) IndexError).
  reflexivity.
Defined.

(** X5. [inverted_ms_pacman] is all-or-nothing as well: when it raises,
    the error is an IndexError, the memory has no marker cell (at most 117
    cells), and neither the memory nor the globals were changed. *)
Theorem inverted_ms_pacman_all_or_nothing (w w' : world) (e : exn) :
  inverted_ms_pacman w = (Raise e, w') ->
  e = IndexError /\ w' = w /\ (length (ram w) <= 117)%nat.
Proof.
  destruct (le_lt_dec (length (ram w)) 117) as [Hshort|Hlen].
  - unfold inverted_ms_pacman. rewrite run_bind, run_get_ram_none by lia.
    intros [= <- <-]. done.
  - destruct (entity_cells (ram w))
      as (o & c & p & rd & t & Ho & Hc & Hp & Hrd & Ht); [lia|].
    destruct (lookup_lt_is_Some_2 (ram w) 117 Hlen) as [m Hm].
    destruct w as [[to tc tp tr n l inv] r].
    cbn [ram glob] in *.
    unfold_inverted.
    run; discriminate.
Qed.

Lemma inverted_ms_pacman_all_or_nothing_witness :
  IndexError = IndexError /\
  mkWorld initial_globals (replicate 117 0) =
  mkWorld initial_globals (replicate 117 0) /\
  (length (ram (mkWorld initial_globals (replicate 117 0%Z))) <= 117)%nat.
Proof.
  apply (inverted_ms_pacman_all_or_nothing
           (mkWorld initial_globals (replicate 117 0))
           (mkWorld initial_globals (replicate 117 0)) IndexError).
  reflexivity.
Defined.

(** X12. The Special-Token-Count Rule is idempotent, for every count and on
    every memory, of any size. *)
Theorem number_power_pills_idempotent (w : world) :
  (number_power_pills ;; number_power_pills) w = number_power_pills w.
Proof.
  destruct w as [[to tc tp tr n l inv] r].
  unfold number_power_pills.
  destruct (n =? 0) eqn:E0; [|destruct (n =? 1) eqn:E1;
    [|destruct (n =? 2) eqn:E2; [|destruct (n =? 3) eqn:E3]]];
    repeat first [run_any_step
                 | rewrite E0 | rewrite E1 | rewrite E2 | rewrite E3];
    reflexivity.
Qed.

(** X13. What [static_ghosts] pins: on a memory that has the position
    cells, the call returns without touching the globals; for each entity
    whose toggle is on, its two position cells hold the home-square
    coordinates afterwards (orange 93/80, cyan 83/80, pink 93/67, red
    83/67), and for each entity whose toggle is off they are as before. *)
Theorem static_ghosts_pins (w : world) :
  (15 < length (ram w))%nat ->
  exists w',
    static_ghosts w = (Ret tt, w') /\
    glob w' = glob w /\
    (if TOGGLE_ORANGE (glob w)
     then ram w' !! 6%nat = Some 93 /\ ram w' !! 12%nat = Some 80
     else ram w' !! 6%nat = ram w !! 6%nat /\
          ram w' !! 12%nat = ram w !! 12%nat) /\
    (if TOGGLE_CYAN (glob w)
     then ram w' !! 7%nat = Some 83 /\ ram w' !! 13%nat = Some 80
     else ram w' !! 7%nat = ram w !! 7%nat /\
          ram w' !! 13%nat = ram w !! 13%nat) /\
    (if TOGGLE_PINK (glob w)
     then ram w' !! 8%nat = Some 93 /\ ram w' !! 14%nat = Some 67
     else ram w' !! 8%nat = ram w !! 8%nat /\
          ram w' !! 14%nat = ram w !! 14%nat) /\
    (if TOGGLE_RED (glob w)
     then ram w' !! 9%nat = Some 83 /\ ram w' !! 15%nat = Some 67
     else ram w' !! 9%nat = ram w !! 9%nat /\
          ram w' !! 15%nat = ram w !! 15%nat).
Proof.
  intros Hlen.
  destruct w as [[o c p rd n l inv] r]. cbn [ram glob] in *.
  unfold static_ghosts.
  destruct o, c, p, rd; run;
    (eexists; split; [reflexivity|]); fields;
    repeat split; ram_lookup.
Qed.

Lemma static_ghosts_pins_witness :
  exists w',
    static_ghosts
      (mkWorld (set_TOGGLE_RED true initial_globals) (replicate 128 0)) =
    (Ret tt, w') /\
    ram w' !! 9%nat = Some 83 /\ ram w' !! 15%nat = Some 67 /\
    ram w' !! 6%nat = Some 0.
Proof.
  destruct (static_ghosts_pins
              (mkWorld (set_TOGGLE_RED true initial_globals) (replicate 128 0)))
    as (w' & Hrun & _ & Horange & _ & _ & Hred); [simpl; lia|].
  exists w'. split; [exact Hrun|].
  split; [apply Hred|]. split; [apply Hred|].
  exact (eq_trans (proj1 Horange) eq_refl).
Defined.

(** ** More on inverted mode *)

(** X6. In normal mode, with the marker inside the window and a timer
    that does not read 0, [inverted_ms_pacman] does exactly what
    [edible_ghosts] does: same outcome, same memory, same globals. *)
Theorem inverted_equals_edible_in_normal_mode (w : world) (m t : Z) :
  IS_INVERTED (glob w) = false ->
  ram w !! 117%nat = Some m ->
  LAST_PP_STATUS (glob w) - 3 < m < LAST_PP_STATUS (glob w) + 3 ->
  ram w !! 116%nat = Some t ->
  t <> 0 ->
  inverted_ms_pacman w = edible_ghosts w.
Proof.
  intros Hinv Hm Hwin Ht Hnz.
  assert (Hlen : (117 < length (ram w))%nat) by (eapply lookup_lt_Some; eauto).
  destruct (entity_cells (ram w))
    as (o & c & p & rd & t' & Ho & Hc & Hp & Hrd & Ht'); [lia|].
  assert (t' = t) by congruence; subst t'; clear Ht'.
  destruct w as [[to tc tp tr n l inv] r].
  cbn [ram glob LAST_PP_STATUS IS_INVERTED] in *. subst inv.
  unfold edible_ghosts.
  unfold_inverted.
  run; reflexivity.
Qed.

Lemma inverted_equals_edible_in_normal_mode_witness :
  inverted_ms_pacman
    (mkWorld (set_LAST_PP_STATUS 63 initial_globals)
             (<[117%nat:=63]> (replicate 128 112))) =
  edible_ghosts
    (mkWorld (set_LAST_PP_STATUS 63 initial_globals)
             (<[117%nat:=63]> (replicate 128 112))).
Proof.
  apply (inverted_equals_edible_in_normal_mode
           (mkWorld (set_LAST_PP_STATUS 63 initial_globals)
                    (<[117%nat:=63]> (replicate 128 112))) 63 112).
  - reflexivity.
  - reflexivity.
  - simpl. lia.
  - reflexivity.
  - lia.
Defined.

(** X7. In inverted mode, with the marker inside the window and a timer
    that does not read 0, [inverted_ms_pacman] changes nothing: the timer
    is not refilled and consumed entities are not respawned. *)
Theorem inverted_mode_step_is_identity (w : world) (m t : Z) :
  (117 < length (ram w))%nat ->
  IS_INVERTED (glob w) = true ->
  ram w !! 117%nat = Some m ->
  LAST_PP_STATUS (glob w) - 3 < m < LAST_PP_STATUS (glob w) + 3 ->
  ram w !! 116%nat = Some t ->
  t <> 0 ->
  inverted_ms_pacman w = (Ret tt, w).
Proof.
  intros Hlen Hinv Hm Hwin Ht Hnz.
  destruct (entity_cells (ram w))
    as (o & c & p & rd & t' & Ho & Hc & Hp & Hrd & Ht'); [lia|].
  assert (t' = t) by congruence; subst t'; clear Ht'.
  destruct w as [[to tc tp tr n l inv] r].
  cbn [ram glob LAST_PP_STATUS IS_INVERTED] in *. subst inv.
  unfold_inverted.
  run; reflexivity.
Qed.

Lemma inverted_mode_step_is_identity_witness :
  inverted_ms_pacman
    (mkWorld (set_IS_INVERTED true (set_LAST_PP_STATUS 10 initial_globals))
             (<[117%nat:=10]> (replicate 128 112))) =
  (Ret tt,
   mkWorld (set_IS_INVERTED true (set_LAST_PP_STATUS 10 initial_globals))
           (<[117%nat:=10]> (replicate 128 112))).
Proof.
  apply (inverted_mode_step_is_identity
           (mkWorld (set_IS_INVERTED true (set_LAST_PP_STATUS 10 initial_globals))
                    (<[117%nat:=10]> (replicate 128 112))) 10 112).
  - simpl. lia.
  - reflexivity.
  - reflexivity.
  - simpl. lia.
  - reflexivity.
  - lia.
Defined.

(** X8. Expiry: whenever the timer cell reads 0, whatever the mode and the
    marker, [inverted_ms_pacman] ends in normal mode with the four entity
    cells at 130 and the timer at 190 (not 255, also when the step started
    in normal mode); the recorded marker is the old one if the marker read
    is inside the window and the marker read otherwise. *)
Theorem inverted_timer_expiry (w : world) (m : Z) :
  ram w !! 117%nat = Some m ->
  ram w !! 116%nat = Some 0 ->
  exists w',
    inverted_ms_pacman w = (Ret tt, w') /\
    IS_INVERTED (glob w') = false /\
    ram w' !! 1%nat = Some 130 /\ ram w' !! 2%nat = Some 130 /\
    ram w' !! 3%nat = Some 130 /\ ram w' !! 4%nat = Some 130 /\
    ram w' !! 116%nat = Some 190 /\
    LAST_PP_STATUS (glob w') =
      (if (LAST_PP_STATUS (glob w) - 3 <? m) && (m <? LAST_PP_STATUS (glob w) + 3)
       then LAST_PP_STATUS (glob w) else m).
Proof.
  intros Hm Ht.
  assert (Hlen : (117 < length (ram w))%nat) by (eapply lookup_lt_Some; eauto).
  destruct (entity_cells (ram w))
    as (o & c & p & rd & t' & Ho & Hc & Hp & Hrd & Ht'); [lia|].
  assert (t' = 0) by congruence; subst t'; clear Ht'.
  destruct w as [[to tc tp tr n l inv] r].
  cbn [ram glob LAST_PP_STATUS IS_INVERTED] in *.
  unfold_inverted.
  run.
  all: eexists; (split; [reflexivity|]); fields.
  all: repeat (split; [solve [ram_lookup]|]).
  all: match goal with
       | H : negb ?b = _ |- context [if ?b then _ else _] =>
           destruct b; first [reflexivity | discriminate]
       end.
Qed.

Lemma inverted_timer_expiry_witness :
  exists w',
    inverted_ms_pacman
      (mkWorld initial_globals (<[117%nat:=4]> (replicate 128 0))) =
    (Ret tt, w') /\
    IS_INVERTED (glob w') = false /\
    ram w' !! 1%nat = Some 130 /\ ram w' !! 2%nat = Some 130 /\
    ram w' !! 3%nat = Some 130 /\ ram w' !! 4%nat = Some 130 /\
    ram w' !! 116%nat = Some 190 /\
    LAST_PP_STATUS (glob w') = 4.
Proof.
  apply (inverted_timer_expiry
           (mkWorld initial_globals (<[117%nat:=4]> (replicate 128 0))) 4).
  - reflexivity.
  - reflexivity.
Defined.

(** X9. The transition in general: whenever the marker read is outside
    the open window around the recorded marker and the timer does not read
    0, whatever the mode, [inverted_ms_pacman] ends in inverted mode,
    records the marker read, sets the four entity cells to 0 and the timer
    to 62, keeps the size of the memory and leaves every other cell (cell 0
    and the positions among them) as it was. *)
Theorem inverted_transition (w : world) (m t : Z) :
  ram w !! 117%nat = Some m ->
  ~ (LAST_PP_STATUS (glob w) - 3 < m < LAST_PP_STATUS (glob w) + 3) ->
  ram w !! 116%nat = Some t ->
  t <> 0 ->
  exists w',
    inverted_ms_pacman w = (Ret tt, w') /\
    IS_INVERTED (glob w') = true /\
    LAST_PP_STATUS (glob w') = m /\
    ram w' !! 1%nat = Some 0 /\ ram w' !! 2%nat = Some 0 /\
    ram w' !! 3%nat = Some 0 /\ ram w' !! 4%nat = Some 0 /\
    ram w' !! 116%nat = Some 62 /\
    length (ram w') = length (ram w) /\
    forall j : nat,
      j <> 1%nat -> j <> 2%nat -> j <> 3%nat -> j <> 4%nat -> j <> 116%nat ->
      ram w' !! j = ram w !! j.
Proof.
  intros Hm Hwin Ht Hnz.
  assert (Hlen : (117 < length (ram w))%nat) by (eapply lookup_lt_Some; eauto).
  destruct (entity_cells (ram w))
    as (o & c & p & rd & t' & Ho & Hc & Hp & Hrd & Ht'); [lia|].
  assert (t' = t) by congruence; subst t'; clear Ht'.
  destruct w as [[to tc tp tr n l inv] r].
  cbn [ram glob LAST_PP_STATUS IS_INVERTED] in *.
  unfold_inverted.
  run.
  all: eexists; (split; [reflexivity|]); fields.
  all: repeat (split; [solve [ram_lookup]|]).
  all: split; [now rewrite ?length_insert|].
  all: intros j H1 H2 H3 H4 H116; ram_lookup.
Qed.

Lemma inverted_transition_witness :
  exists w',
    inverted_ms_pacman
      (mkWorld (set_IS_INVERTED true (set_LAST_PP_STATUS 10 initial_globals))
               (<[117%nat:=2]> (replicate 128 30))) =
    (Ret tt, w') /\
    IS_INVERTED (glob w') = true /\
    LAST_PP_STATUS (glob w') = 2 /\
    ram w' !! 1%nat = Some 0 /\ ram w' !! 2%nat = Some 0 /\
    ram w' !! 3%nat = Some 0 /\ ram w' !! 4%nat = Some 0 /\
    ram w' !! 116%nat = Some 62 /\
    length (ram w') =
      length (ram (mkWorld (set_IS_INVERTED true
                              (set_LAST_PP_STATUS 10 initial_globals))
                           (<[117%nat:=2]> (replicate 128 30)))) /\
    forall j : nat,
      j <> 1%nat -> j <> 2%nat -> j <> 3%nat -> j <> 4%nat -> j <> 116%nat ->
      ram w' !! j =
      ram (mkWorld (set_IS_INVERTED true (set_LAST_PP_STATUS 10 initial_globals))
                   (<[117%nat:=2]> (replicate 128 30))) !! j.
Proof.
  apply (inverted_transition
           (mkWorld (set_IS_INVERTED true (set_LAST_PP_STATUS 10 initial_globals))
                    (<[117%nat:=2]> (replicate 128 30))) 2 30).
  - reflexivity.
  - simpl. lia.
  - reflexivity.
  - lia.
Defined.

(** ** The reset callback *)

Ltac unfold_reset :=
  unfold inverted_ms_pacman_reset, set_start_condition, make_edible.

(** X10. The reset callback, whatever the mode and the memory contents
    before: on a memory that has the timer cell it returns, leaves normal
    mode with the recorded marker 63, the four entities edible (130) at
    their start coordinates and the timer at 255. *)
Theorem inverted_ms_pacman_reset_state (w : world) :
  (116 < length (ram w))%nat ->
  exists w',
    inverted_ms_pacman_reset w = (Ret tt, w') /\
    IS_INVERTED (glob w') = false /\
    LAST_PP_STATUS (glob w') = 63 /\
    ram w' !! 1%nat = Some 130 /\ ram w' !! 6%nat = Some 120 /\
    ram w' !! 12%nat = Some 50 /\
    ram w' !! 2%nat = Some 130 /\ ram w' !! 7%nat = Some 100 /\
    ram w' !! 13%nat = Some 50 /\
    ram w' !! 3%nat = Some 130 /\ ram w' !! 8%nat = Some 80 /\
    ram w' !! 14%nat = Some 50 /\
    ram w' !! 4%nat = Some 130 /\ ram w' !! 9%nat = Some 60 /\
    ram w' !! 15%nat = Some 50 /\
    ram w' !! 116%nat = Some 255.
Proof.
  intros Hlen. unfold_reset. run.
  eexists; (split; [reflexivity|]); fields.
  repeat split; ram_lookup.
Qed.

Lemma inverted_ms_pacman_reset_state_witness :
  exists w',
    inverted_ms_pacman_reset
      (mkWorld (set_IS_INVERTED true initial_globals) (replicate 128 0)) =
    (Ret tt, w') /\
    IS_INVERTED (glob w') = false /\
    LAST_PP_STATUS (glob w') = 63 /\
    ram w' !! 1%nat = Some 130 /\ ram w' !! 6%nat = Some 120 /\
    ram w' !! 12%nat = Some 50 /\
    ram w' !! 2%nat = Some 130 /\ ram w' !! 7%nat = Some 100 /\
    ram w' !! 13%nat = Some 50 /\
    ram w' !! 3%nat = Some 130 /\ ram w' !! 8%nat = Some 80 /\
    ram w' !! 14%nat = Some 50 /\
    ram w' !! 4%nat = Some 130 /\ ram w' !! 9%nat = Some 60 /\
    ram w' !! 15%nat = Some 50 /\
    ram w' !! 116%nat = Some 255.
Proof.
  apply (inverted_ms_pacman_reset_state
           (mkWorld (set_IS_INVERTED true initial_globals) (replicate 128 0))).
  simpl. lia.
Defined.

(** X11. After a reset the state machine is at rest: as long as the
    marker cell reads a value strictly between 60 and 66, a step of
    [inverted_ms_pacman] right after the reset changes nothing, so reset
    followed by a step is the same as reset. *)
Theorem reset_then_step_is_reset (w : world) (m : Z) :
  ram w !! 117%nat = Some m ->
  60 < m < 66 ->
  (inverted_ms_pacman_reset ;; inverted_ms_pacman) w =
  inverted_ms_pacman_reset w.
Proof.
  intros Hm Hwin.
  assert (Hlen : (117 < length (ram w))%nat) by (eapply lookup_lt_Some; eauto).
  rewrite run_bind.
  unfold_reset. run.
  unfold_inverted.
  run_again; reflexivity.
Qed.

Lemma reset_then_step_is_reset_witness :
  (inverted_ms_pacman_reset ;; inverted_ms_pacman)
    (mkWorld initial_globals (replicate 128 63)) =
  inverted_ms_pacman_reset (mkWorld initial_globals (replicate 128 63)).
Proof.
  apply (reset_then_step_is_reset
           (mkWorld initial_globals (replicate 128 63)) 63).
  - reflexivity.
  - lia.
Defined.

(** * Further properties of the registry *)

Lemma configured_from_refl (g : globals) : configured_from g g.
Proof. unfold configured_from. tauto. Qed.

Lemma configured_from_trans (g1 g2 g3 : globals) :
  configured_from g1 g2 -> configured_from g2 g3 -> configured_from g1 g3.
Proof.
  unfold configured_from.
  intros (?&?&?&?&?&?&?) (?&?&?&?&?&?&?).
  split; [|split; [|split; [|split; [|split; [|split]]]]];
    try congruence; auto.
Qed.

Lemma int_of_char_range (ch : ascii) (c : cfg) :
  exists r, @int_of_char cfg ch c = (r, c) /\
            match r with Ret n => 0 <= n <= 9 | Raise _ => True end.
Proof.
  unfold int_of_char.
  destruct (_ && _)%bool eqn:E; eexists; (split; [reflexivity|]); [|done].
  apply andb_true_iff in E as [H1 H2].
  apply Z.leb_le in H1, H2. lia.
Qed.

(** One pass of the loop, for any element of [modifs], returning or
    raising. *)
Lemma body_effect (v : pyval) (c c' : cfg) (o : outcome unit) :
  modif_funcs_body v c = (o, c') ->
  configured_from (cfg_glob c) (cfg_glob c') /\ registered_from c c'.
Proof.
  destruct c as [[to tc tp tr n l inv] steps resets].
  unfold modif_funcs_body, configured_from, registered_from.
  destruct v as [s|f]; cbn [py_eq startswith index_last].
  - repeat (match goal with
            | |- context [if String.eqb ?a ?b then _ else _] =>
                destruct (String.eqb a b)
            end; [intros [= <- <-]; cbn; tauto|]).
    rewrite run_bind, run_ret.
    destruct (String.prefix "power" s).
    + rewrite run_bind.
      destruct (last_char s) as [ch|]; [|intros [= <- <-]; cbn; tauto].
      rewrite run_ret, run_bind.
      destruct (int_of_char_range ch
                  (mkCfg (mkGlobals to tc tp tr n l inv) steps resets))
        as ([d|e] & -> & Hd); [|intros [= <- <-]; cbn; tauto].
      destruct (_ || _)%bool eqn:E; intros [= <- <-]; cbn; [tauto|].
      apply orb_false_elim in E as [E1 E2].
      apply Z.ltb_ge in E1. rewrite Z.gtb_ltb in E2. apply Z.ltb_ge in E2.
      repeat split; auto; lia.
    + cbn [funobj_eqb].
      destruct (String.eqb s "inverted"); intros [= <- <-]; cbn; tauto.
  - rewrite run_bind. cbn. intros [= <- <-]. cbn. tauto.
Qed.

Lemma for_each_effect (modifs : list pyval) (c c' : cfg) (o : outcome unit) :
  for_each modifs modif_funcs_body c = (o, c') ->
  configured_from (cfg_glob c) (cfg_glob c') /\
  (Forall is_step_callback (step_modifs c) ->
   Forall is_step_callback (step_modifs c')) /\
  (Forall is_reset_callback (reset_modifs c) ->
   Forall is_reset_callback (reset_modifs c')) /\
  (length (step_modifs c') <= length (step_modifs c) + length modifs)%nat /\
  (length (reset_modifs c') <= length (reset_modifs c) + length modifs)%nat.
Proof.
  revert c. induction modifs as [|v modifs IH]; intros c; cbn [for_each].
  - intros [= <- <-]. split; [apply configured_from_refl|].
    split; [done|]. split; [done|]. lia.
  - rewrite run_bind.
    destruct (modif_funcs_body v c) as [o1 c1] eqn:Hbody.
    apply body_effect in Hbody as [Hg [Hs Hr]].
    assert (Hstep1 : Forall is_step_callback (step_modifs c) ->
                     Forall is_step_callback (step_modifs c1)).
    { intros HF. destruct Hs as [-> | [-> | ->]]; [done| |];
        (apply Forall_app; split; [done|]);
        (apply Forall_cons; split; [|apply Forall_nil_2]);
        unfold is_step_callback; auto. }
    assert (Hreset1 : Forall is_reset_callback (reset_modifs c) ->
                      Forall is_reset_callback (reset_modifs c1)).
    { intros HF. destruct Hr as [-> | [-> | ->]]; [done| |];
        (apply Forall_app; split; [done|]);
        (apply Forall_cons; split; [|apply Forall_nil_2]);
        unfold is_reset_callback; auto. }
    assert (Hlen1 : (length (step_modifs c1) <= length (step_modifs c) + 1)%nat).
    { destruct Hs as [-> | [-> | ->]]; rewrite ?length_app; simpl; lia. }
    assert (Hlen2 : (length (reset_modifs c1) <= length (reset_modifs c) + 1)%nat).
    { destruct Hr as [-> | [-> | ->]]; rewrite ?length_app; simpl; lia. }
    destruct o1 as [[]|e].
    + intros Hrun. destruct (IH _ Hrun) as (Hg' & Hs' & Hr' & Hl1 & Hl2).
      split; [eapply configured_from_trans; eauto|].
      cbn [length]. split; [auto|]. split; [auto|]. lia.
    + intros [= <- <-]. cbn [length].
      split; [done|]. split; [done|]. split; [done|]. lia.
Qed.

(** X14. What configuration can do to the globals, for every list of
    modifications (strings or not) and whether [modif_funcs] returns or
    raises: a toggle that was on is still on, the inverted-mode state
    ([LAST_PP_STATUS], [IS_INVERTED]) is untouched, and a power-pill count
    that was within 0..4 is still within 0..4. *)
Theorem modif_funcs_globals (modifs : list pyval) (g g' : globals)
    (o : outcome (list funobj * list funobj)) :
  modif_funcs modifs g = (o, g') ->
  configured_from g g'.
Proof.
  unfold modif_funcs.
  destruct (for_each _ _ _) as [[[]|e] c'] eqn:Hrun; intros [= <- <-];
    apply for_each_effect in Hrun as [Hg _]; exact Hg.
Qed.

Lemma modif_funcs_globals_witness :
  configured_from initial_globals
    (set_NUMBER_POWER_PILLS 3 (set_TOGGLE_RED true initial_globals)).
Proof.
  apply (modif_funcs_globals
           [PyStr "disable_red"; PyStr "power3"; PyStr "power7"]
           initial_globals _
           (Raise (ValueError "Invalid Number of Power Pills"))).
  reflexivity.
Defined.



Lemma prefix_power_unknown (s : string) :
  String.prefix "power" s = true -> known_name s = false.
Proof.
  intros Hp. unfold known_name, known_names. cbn [existsb].
  repeat match goal with
         | |- context [String.eqb s ?k] =>
             destruct (String.eqb_spec s k) as [->|_]; [discriminate Hp|]
         end.
  reflexivity.
Qed.

Lemma prefix_power_last (s : string) :
  String.prefix "power" s = true -> exists ch, last_char s = Some ch.
Proof.
  destruct s as [|a s]; [discriminate|]. intros _.
  revert a. induction s as [|b s IH]; intros a.
  - exists a. reflexivity.
  - destruct (IH b) as [ch Hch]. exists ch.
    cbn [last_char]. exact Hch.
Qed.

(** X16. The power-pill-count branch looks at the last character only:
    every name that starts with [power] has a last character, and when
    that character is an ASCII character the loop body sets the count to
    its value and appends [number_power_pills] to the reset list if it is
    a digit 0..4, raises the ValueError of the range check if it is a
    digit 5..9, and raises a ValueError (that of [int]) if it is not a
    digit; in both error cases nothing is changed.  So [power14]
    configures 4 pills. *)
Theorem power_name_uses_last_character (s : string) (c : cfg) :
  String.prefix "power" s = true ->
  exists ch,
    last_char s = Some ch /\
    (Z.of_N (N_of_ascii ch) < 128 ->
     match digit_value ch with
     | Some d =>
         modif_funcs_body (PyStr s) c =
         if d <=? 4
         then (Ret tt,
               mkCfg (set_NUMBER_POWER_PILLS d (cfg_glob c)) (step_modifs c)
                     (reset_modifs c ++ [fn_number_power_pills]))
         else (Raise (ValueError "Invalid Number of Power Pills"), c)
     | None =>
         exists msg, modif_funcs_body (PyStr s) c = (Raise (ValueError msg), c)
     end).
Proof.
  intros Hp. destruct (prefix_power_last s Hp) as [ch Hch].
  exists ch. split; [exact Hch|]. intros _.
  pose proof (prefix_power_unknown s Hp) as Hk.
  unfold known_name, known_names in Hk. cbn [existsb] in Hk.
  repeat (apply orb_false_elim in Hk; destruct Hk as [? Hk]).
  unfold modif_funcs_body. cbn [py_eq startswith index_last].
  repeat match goal with
         | H : String.eqb _ _ = false |- _ => rewrite H; clear H
         end.
  rewrite run_bind, run_ret, Hp, run_bind, Hch, run_ret, run_bind.
  unfold int_of_char, digit_value.
  destruct (_ && _)%bool eqn:E; [|eexists; reflexivity].
  rewrite run_ret.
  apply andb_true_iff in E as [H1 H2]. apply Z.leb_le in H1, H2.
  assert (((Z.of_N (N_of_ascii ch) - 48 <? 0) = false)) as ->
    by (apply Z.ltb_ge; lia).
  cbn [orb]. rewrite Z.gtb_ltb.
  destruct (Z.leb_spec (Z.of_N (N_of_ascii ch) - 48) 4) as [Hle|Hgt].
  - assert ((4 <? Z.of_N (N_of_ascii ch) - 48) = false) as ->
      by (apply Z.ltb_ge; lia).
    reflexivity.
  - assert ((4 <? Z.of_N (N_of_ascii ch) - 48) = true) as ->
      by (apply Z.ltb_lt; lia).
    reflexivity.
Qed.

Lemma power_name_uses_last_character_witness :
  modif_funcs_body (PyStr "power14") (mkCfg initial_globals [] []) =
  (Ret tt,
   mkCfg (set_NUMBER_POWER_PILLS 4 initial_globals) []
         [fn_number_power_pills]).
Proof.
  destruct (power_name_uses_last_character "power14"
              (mkCfg initial_globals [] []) eq_refl) as (ch & Hch & Hbody).
  injection Hch as <-.
  apply Hbody. simpl. lia.
Defined.

Example power14_configures_4 :
  modif_funcs [PyStr "power14"] initial_globals =
  (Ret ([], [fn_number_power_pills]), set_NUMBER_POWER_PILLS 4 initial_globals).
Proof. reflexivity. Qed.

(** * The shark modes of Fishing Derby *)

Lemma shark_mode_range (sharkmode : Z) :
  0 <= FishingDerby.SHARK_MODE sharkmode <= 4.
Proof.
  unfold FishingDerby.SHARK_MODE.
  destruct (Z.ltb_spec sharkmode 0); cbn [orb]; [lia|].
  rewrite Z.gtb_ltb. destruct (Z.ltb_spec 4 sharkmode); lia.
Qed.

Lemma well_formed_lookup (w : world) (i : nat) (x : Z) :
  well_formed w -> ram w !! i = Some x -> 0 <= x < 256.
Proof.
  intros [_ Hb] Hx.
  rewrite Forall_lookup in Hb. specialize (Hb i x Hx).
  unfold is_byte in Hb. apply andb_true_iff in Hb as [H1 H2].
  apply Z.leb_le in H1. apply Z.ltb_lt in H2. lia.
Qed.

Lemma well_formed_insert (g g' : globals) (r : list Z) (i : nat) (v : Z) :
  well_formed (mkWorld g r) -> 0 <= v < 256 ->
  well_formed (mkWorld g' (<[i:=v]> r)).
Proof.
  intros [Hl Hb] Hv. split; cbn [ram] in *.
  - now rewrite length_insert.
  - apply Forall_insert; [done|]. unfold is_byte.
    apply andb_true_iff. split; [apply Z.leb_le | apply Z.ltb_lt]; lia.
Qed.

Lemma run_set_ram_byte (i : nat) (v : Z) (w : world) :
  (i < length (ram w))%nat -> 0 <= v < 256 ->
  set_ram i v w = (Ret tt, mkWorld (glob w) (<[i:=v]> (ram w))).
Proof.
  intros Hi Hv. apply run_set_ram; [done|].
  unfold is_byte. apply andb_true_iff.
  split; [apply Z.leb_le | apply Z.ltb_lt]; lia.
Qed.

Lemma gtb_guard (a b : Z) (v : bool) : (a >? b) = v -> (b <? a) = v.
Proof. now rewrite Z.gtb_ltb. Qed.

Ltac gt_guards :=
  repeat match goal with
    | H : (_ >? _) = _ |- _ => apply gtb_guard in H
    end.

Ltac run_shark :=
  repeat first
    [ run_step
    | run_read
    | rewrite run_set_ram_byte by (first [ram_len | gt_guards; guards; lia]);
      cbv beta iota; fields
    | match goal with
      | |- context [when ?b _] =>
          lazymatch b with
          | true => fail
          | false => fail
          | _ => destruct b eqn:?;
                 try solve [exfalso; gt_guards; guards;
                            first [lia | congruence]]
          end
      end ].

(** X17. Whatever value the [--sharkmode] option has, [alter_ram] with the
    mode the module derives from it is safe on a well-formed memory (128
    cells, each a byte): it returns, the memory is well-formed again (in
    speed mode the value written, old value plus 5, is written only below
    120 and so stays a byte), and no cell other than cell 75 is changed. *)
Theorem alter_ram_safe (sharkmode : Z) (w : world) :
  well_formed w ->
  exists w',
    FishingDerby.alter_ram (FishingDerby.SHARK_MODE sharkmode) w =
    (Ret tt, w') /\
    well_formed w' /\
    glob w' = glob w /\
    forall j : nat, j <> 75%nat -> ram w' !! j = ram w !! j.
Proof.
  intros Hw.
  pose proof (shark_mode_range sharkmode) as Hmode.
  destruct (lookup_lt_is_Some_2 (ram w) 75) as [x Hx]; [destruct Hw; lia|].
  pose proof (well_formed_lookup w 75 x Hw Hx) as Hbx.
  assert (Hlen : (75 < length (ram w))%nat) by (destruct Hw; lia).
  destruct w as [g r]. cbn [ram glob] in *.
  remember (FishingDerby.SHARK_MODE sharkmode) as mode eqn:Emode.
  clear Emode.
  unfold FishingDerby.alter_ram.
  run_shark.
  all: eexists; (split; [reflexivity|]); fields.
  all: (split; [|split; [reflexivity|intros j Hj; ram_lookup]]).
  all: try done.
  all: (eapply well_formed_insert; [exact Hw|]); gt_guards; guards; lia.
Qed.

Lemma alter_ram_safe_witness :
  exists w',
    FishingDerby.alter_ram (FishingDerby.SHARK_MODE 4)
      (mkWorld initial_globals (replicate 128 119)) = (Ret tt, w') /\
    well_formed w' /\
    glob w' = initial_globals /\
    forall j : nat, j <> 75%nat ->
      ram w' !! j = ram (mkWorld initial_globals (replicate 128 119)) !! j.
Proof.
  apply (alter_ram_safe 4 (mkWorld initial_globals (replicate 128 119))).
  split.
  - reflexivity.
  - apply Forall_replicate. reflexivity.
Defined.

(** X18. Teleport mode (mode 3) acts at the positions 100 and 30, not at
    25 and 105: when cell 75 reads 100 it is set to 25, when it reads 30 it
    is set to 105, and for every other value (25 and 105 among them) the
    call changes nothing. *)
Theorem alter_ram_teleport (w : world) (x : Z) :
  ram w !! 75%nat = Some x ->
  FishingDerby.alter_ram 3 w =
  (Ret tt,
   if x =? 100 then mkWorld (glob w) (<[75%nat:=25]> (ram w))
   else if x =? 30 then mkWorld (glob w) (<[75%nat:=105]> (ram w))
   else w).
Proof.
  intros Hx.
  assert (Hlen : (75 < length (ram w))%nat) by (eapply lookup_lt_Some; eauto).
  destruct w as [g r]. cbn [ram glob] in *.
  unfold FishingDerby.alter_ram.
  cbn [Z.gtb Z.eqb Z.compare Pos.eqb Pos.compare Pos.compare_cont].
  run_shark; gt_guards; guards; subst; try lia; reflexivity.
Qed.

Lemma alter_ram_teleport_witness :
  FishingDerby.alter_ram 3 (mkWorld initial_globals (replicate 128 105)) =
  (Ret tt, mkWorld initial_globals (replicate 128 105)).
Proof.
  apply (alter_ram_teleport (mkWorld initial_globals (replicate 128 105)) 105).
  reflexivity.
Defined.

(** X19. Speed mode (mode 4), for a byte in cell 75: below 120 the cell is
    advanced by 5, above 120 it is set back to 1, and at exactly 120 the
    call changes nothing. *)
Theorem alter_ram_speed (w : world) (x : Z) :
  ram w !! 75%nat = Some x ->
  0 <= x < 256 ->
  FishingDerby.alter_ram 4 w =
  (Ret tt,
   if x <? 120 then mkWorld (glob w) (<[75%nat:=x + 5]> (ram w))
   else if x =? 120 then w
   else mkWorld (glob w) (<[75%nat:=1]> (ram w))).
Proof.
  intros Hx Hb.
  assert (Hlen : (75 < length (ram w))%nat) by (eapply lookup_lt_Some; eauto).
  destruct w as [g r]. cbn [ram glob] in *.
  unfold FishingDerby.alter_ram.
  cbn [Z.gtb Z.eqb Z.compare Pos.eqb Pos.compare Pos.compare_cont].
  run_shark; gt_guards; guards.
  all: destruct (Z.ltb_spec x 120); try lia.
  all: destruct (Z.eqb_spec x 120); try lia.
  all: reflexivity.
Qed.

Lemma alter_ram_speed_witness :
  FishingDerby.alter_ram 4 (mkWorld initial_globals (replicate 128 120)) =
  (Ret tt, mkWorld initial_globals (replicate 128 120)).
Proof.
  apply (alter_ram_speed (mkWorld initial_globals (replicate 128 120)) 120).
  - reflexivity.
  - lia.
Defined.

(** X20. In every mode but speed mode, [alter_ram] is idempotent: on every
    memory, of any size, calling it twice in a row gives the same outcome
    and the same state as calling it once. *)
Theorem alter_ram_idempotent (mode : Z) (w : world) :
  mode <> 4 ->
  (FishingDerby.alter_ram mode ;; FishingDerby.alter_ram mode) w =
  FishingDerby.alter_ram mode w.
Proof.
  intros Hmode.
  destruct w as [g r].
  unfold FishingDerby.alter_ram.
  destruct (mode >? 0) eqn:E0; [|reflexivity].
  destruct (mode =? 1) eqn:E1; destruct (mode =? 2) eqn:E2;
    destruct (mode =? 3) eqn:E3; destruct (mode =? 4) eqn:E4;
    guards; try lia.
  all: destruct (le_lt_dec (length r) 75) as [Hshort|Hlen].
  all: try (destruct (lookup_lt_is_Some_2 r 75 Hlen) as [x Hx]).
  all: repeat first
         [ rewrite run_set_ram_same
             by (first [solve [ram_lookup] | reflexivity])
         | rewrite run_get_ram_none by (cbn [ram]; lia)
         | run_step
         | run_read
         | run_split_open
         | rewrite run_set_ram_cases by reflexivity;
           cbn [ram glob];
           match goal with
           | |- context [Nat.ltb ?i (length ?r)] =>
               destruct (Nat.ltb_spec i (length r)); [lia|]
           end;
           cbv beta iota; fields ].
  all: reflexivity.
Qed.

Lemma alter_ram_idempotent_witness :
  (FishingDerby.alter_ram 3 ;; FishingDerby.alter_ram 3)
    (mkWorld initial_globals (replicate 128 100)) =
  FishingDerby.alter_ram 3 (mkWorld initial_globals (replicate 128 100)).
Proof. apply alter_ram_idempotent. lia. Defined.

(** In speed mode a second call moves the shark again. *)
Example alter_ram_speed_not_idempotent :
  (FishingDerby.alter_ram 4 ;; FishingDerby.alter_ram 4)
    (mkWorld initial_globals (replicate 128 10)) <>
  FishingDerby.alter_ram 4 (mkWorld initial_globals (replicate 128 10)).
Proof. vm_compute. discriminate. Qed.

(** * Key handling of the human play mode *)

(** X21. The action does not depend on the order in which the set of held
    keys is listed: two listings that are permutations of each other give
    the same action. *)
Theorem get_action_order (keys2actions : gmap (list Z) Z) (l1 l2 : list Z) :
  l1 ≡ₚ l2 ->
  FishingDerby._get_action keys2actions l1 =
  FishingDerby._get_action keys2actions l2.
Proof.
  intros Hp. unfold FishingDerby._get_action.
  replace (merge_sort Z.le l2) with (merge_sort Z.le l1); [reflexivity|].
  apply (StronglySorted_unique Z.le).
  - apply StronglySorted_merge_sort; apply _.
  - apply StronglySorted_merge_sort; apply _.
  - now rewrite !merge_sort_Permutation.
Qed.

Lemma get_action_order_witness :
  FishingDerby._get_action {[ [32; 273] := 11 ]} [273; 32] =
  FishingDerby._get_action {[ [32; 273] := 11 ]} [32; 273].
Proof.
  apply get_action_order. apply Permutation_swap.
Defined.

(** X22. When no arrangement of the held keys is a key of the map, the
    action is 0 (NOOP). *)
Theorem get_action_noop (keys2actions : gmap (list Z) Z) (l : list Z) :
  (forall t, t ≡ₚ l -> keys2actions !! t = None) ->
  FishingDerby._get_action keys2actions l = 0.
Proof.
  intros H. unfold FishingDerby._get_action.
  rewrite (H (merge_sort Z.le l)); [reflexivity|].
  apply merge_sort_Permutation.
Qed.

Lemma get_action_noop_witness :
  FishingDerby._get_action ∅ [97; 32] = 0.
Proof.
  apply get_action_noop. intros t _. apply lookup_empty.
Defined.

Section HandlerFacts.
Context (K_p K_r : Z) (keys2actions : gmap (list Z) Z).

Local Abbreviation handle_event :=
  (FishingDerby.handle_event K_p K_r keys2actions).
Local Abbreviation handle_events :=
  (FishingDerby.handle_events K_p K_r keys2actions).
Local Abbreviation _handle_user_input :=
  (FishingDerby._handle_user_input K_p K_r keys2actions).
Local Abbreviation is_action_key :=
  (FishingDerby.is_action_key keys2actions).
Local Abbreviation held_keys_ok :=
  (FishingDerby.held_keys_ok K_r keys2actions).

Lemma handle_event_flags (e : FishingDerby.event) (h h' : FishingDerby.human) :
  handle_event e h = FishingDerby.Handled h' ->
  FishingDerby.running h' =
    FishingDerby.running h && negb (FishingDerby.is_quit e) /\
  FishingDerby.paused h' =
    xorb (FishingDerby.paused h) (FishingDerby.is_keydown K_p e) /\
  FishingDerby.env_resets h' =
    (FishingDerby.env_resets h +
     (if FishingDerby.is_keydown K_r e then 1 else 0))%nat /\
  FishingDerby.current_mouse_pos h' = FishingDerby.current_mouse_pos h.
Proof.
  destruct h as [run pau keys pos n].
  destruct e as [|key|key|]; cbn [FishingDerby.handle_event
    FishingDerby.is_quit FishingDerby.is_keydown
    FishingDerby.running FishingDerby.paused
    FishingDerby.env_resets FishingDerby.current_mouse_pos
    FishingDerby.current_keys_down].
  - intros [= <-]. cbn. rewrite andb_false_r, xorb_false_r. auto with lia.
  - destruct (key =? K_p), (key =? K_r), (is_action_key key);
      intros [= <-]; cbn; rewrite andb_true_r, ?xorb_true_r, ?xorb_false_r;
      auto with lia.
  - destruct (is_action_key key); [destruct (bool_decide _)|];
      intros [= <-]; cbn; rewrite andb_true_r, xorb_false_r; auto with lia.
  - intros [= <-]. cbn. rewrite andb_true_r, xorb_false_r. auto with lia.
Qed.

Lemma handle_events_flags (events : list FishingDerby.event)
    (h h' : FishingDerby.human) :
  handle_events events h = FishingDerby.Handled h' ->
  FishingDerby.running h' =
    FishingDerby.running h && negb (existsb FishingDerby.is_quit events) /\
  FishingDerby.paused h' =
    xorb (FishingDerby.paused h)
         (Nat.odd (FishingDerby.presses K_p events)) /\
  FishingDerby.env_resets h' =
    (FishingDerby.env_resets h + FishingDerby.presses K_r events)%nat /\
  FishingDerby.current_mouse_pos h' = FishingDerby.current_mouse_pos h.
Proof.
  revert h. induction events as [|e events IH]; intros h.
  - intros [= <-]. cbn. rewrite andb_true_r, xorb_false_r. auto with lia.
  - cbn [FishingDerby.handle_events].
    destruct (handle_event e h) as [h1|] eqn:He; [|discriminate].
    intros Hrest.
    apply handle_event_flags in He as (Hr & Hp & Hn & Hm).
    apply IH in Hrest as (Hr' & Hp' & Hn' & Hm').
    rewrite Hr', Hp', Hn', Hm', Hr, Hp, Hn, Hm.
    unfold FishingDerby.presses. cbn [existsb List.filter].
    split; [|split; [|split; [|reflexivity]]].
    + destruct (FishingDerby.is_quit e); cbn;
        now rewrite ?andb_true_r, ?andb_false_r.
    + destruct (FishingDerby.is_keydown K_p e); cbn [length].
      * rewrite Nat.odd_succ, <- Nat.negb_odd.
        destruct (FishingDerby.paused h), (Nat.odd _); reflexivity.
      * now rewrite xorb_false_r.
    + destruct (FishingDerby.is_keydown K_r e); cbn [length]; lia.
Qed.

(** X23. What a batch of events does to the flags, when the handler
    returns: [running] stays true only if it was true and the batch has no
    QUIT (it is never set back to true, and a QUIT does not stop the rest of
    the batch from being handled); [paused] is flipped once per press of P,
    so an even number of presses leaves it as it was; the environment is
    reset once per press of R; and the mouse position is the one read at
    the start. *)
Theorem handle_user_input_flags (mouse_pos : Z * Z)
    (events : list FishingDerby.event) (h h' : FishingDerby.human) :
  _handle_user_input mouse_pos events h = FishingDerby.Handled h' ->
  FishingDerby.running h' =
    FishingDerby.running h && negb (existsb FishingDerby.is_quit events) /\
  FishingDerby.paused h' =
    xorb (FishingDerby.paused h)
         (Nat.odd (FishingDerby.presses K_p events)) /\
  FishingDerby.env_resets h' =
    (FishingDerby.env_resets h + FishingDerby.presses K_r events)%nat /\
  FishingDerby.current_mouse_pos h' = mouse_pos.
Proof.
  intros Hrun. apply handle_events_flags in Hrun. exact Hrun.
Qed.

Lemma handle_event_held (e : FishingDerby.event) (h : FishingDerby.human) :
  held_keys_ok h ->
  held_keys_ok (FishingDerby.state_of (handle_event e h)).
Proof.
  destruct h as [run pau keys pos n]. unfold FishingDerby.held_keys_ok.
  intros Hok.
  destruct e as [|key|key|]; cbn [FishingDerby.handle_event
    FishingDerby.running FishingDerby.paused FishingDerby.state_of
    FishingDerby.env_resets FishingDerby.current_mouse_pos
    FishingDerby.current_keys_down] in *; [exact Hok| | |exact Hok].
  - destruct (key =? K_p); cbn;
      (destruct (Z.eqb_spec key K_r); [exact Hok|]);
      (destruct (is_action_key key) eqn:Ha; [|exact Hok]);
      cbn; intros k [->%elem_of_singleton|Hk]%elem_of_union; auto.
  - destruct (is_action_key key); [|exact Hok].
    destruct (bool_decide _); [|exact Hok].
    cbn. intros k [Hk _]%elem_of_difference. auto.
Qed.

(** X24. An invariant of the set of held keys: if every held key is an
    action key other than the reset key R, this is still so after a batch
    of events, whether the handler returns or raises (R itself is never
    added to the set). *)
Theorem handle_user_input_held_keys (mouse_pos : Z * Z)
    (events : list FishingDerby.event) (h : FishingDerby.human) :
  held_keys_ok h ->
  held_keys_ok
    (FishingDerby.state_of (_handle_user_input mouse_pos events h)).
Proof.
  unfold FishingDerby._handle_user_input.
  set (h0 := FishingDerby.mkHuman _ _ _ _ _).
  intros Hok. assert (Hok0 : held_keys_ok h0) by exact Hok.
  clearbody h0. clear Hok h.
  revert h0 Hok0. induction events as [|e events IH]; intros h Hok.
  - exact Hok.
  - cbn [FishingDerby.handle_events].
    pose proof (handle_event_held e h Hok) as H1.
    destruct (handle_event e h) as [h1|key h1]; [apply IH, H1 | exact H1].
Qed.

(** X25. Releasing an action key that is not in the set of held keys makes
    the handler raise KeyError at that event: the rest of the batch is not
    handled. *)
Theorem keyup_of_unheld_key_raises (mouse_pos : Z * Z) (key : Z)
    (rest : list FishingDerby.event) (h : FishingDerby.human) :
  is_action_key key = true ->
  key ∉ FishingDerby.current_keys_down h ->
  _handle_user_input mouse_pos (FishingDerby.KEYUP key :: rest) h =
  FishingDerby.KeyError key
    (FishingDerby.mkHuman (FishingDerby.running h) (FishingDerby.paused h)
       (FishingDerby.current_keys_down h) mouse_pos
       (FishingDerby.env_resets h)).
Proof.
  intros Ha Hk.
  unfold FishingDerby._handle_user_input.
  cbn [FishingDerby.handle_events FishingDerby.handle_event
       FishingDerby.current_keys_down].
  rewrite Ha. rewrite bool_decide_eq_false_2 by exact Hk. reflexivity.
Qed.

(** X26. If the reset key R is itself an action key, pressing and
    releasing it raises KeyError: the press resets the environment without
    putting R into the set of held keys, and the release then removes a key
    that is not there. *)
Theorem reset_key_release_raises (mouse_pos : Z * Z)
    (rest : list FishingDerby.event) (h : FishingDerby.human) :
  K_p <> K_r ->
  is_action_key K_r = true ->
  K_r ∉ FishingDerby.current_keys_down h ->
  _handle_user_input mouse_pos
    (FishingDerby.KEYDOWN K_r :: FishingDerby.KEYUP K_r :: rest) h =
  FishingDerby.KeyError K_r
    (FishingDerby.mkHuman (FishingDerby.running h) (FishingDerby.paused h)
       (FishingDerby.current_keys_down h) mouse_pos
       (S (FishingDerby.env_resets h))).
Proof.
  intros Hne Ha Hk.
  unfold FishingDerby._handle_user_input.
  cbn [FishingDerby.handle_events FishingDerby.handle_event
       FishingDerby.current_keys_down].
  rewrite Z.eqb_refl.
  destruct (Z.eqb_spec K_r K_p) as [E|_]; [congruence|].
  cbn. rewrite Ha. rewrite bool_decide_eq_false_2 by exact Hk. reflexivity.
Qed.

(** X27. Pressing and then releasing an action key other than P and R,
    which was not held before, leaves the set of held keys and the flags as
    they were. *)
Theorem press_then_release (mouse_pos : Z * Z) (key : Z)
    (h : FishingDerby.human) :
  key <> K_r -> key <> K_p ->
  is_action_key key = true ->
  key ∉ FishingDerby.current_keys_down h ->
  _handle_user_input mouse_pos
    [FishingDerby.KEYDOWN key; FishingDerby.KEYUP key] h =
  FishingDerby.Handled
    (FishingDerby.mkHuman (FishingDerby.running h) (FishingDerby.paused h)
       (FishingDerby.current_keys_down h) mouse_pos
       (FishingDerby.env_resets h)).
Proof.
  intros Hr Hp Ha Hk.
  unfold FishingDerby._handle_user_input.
  cbn [FishingDerby.handle_events FishingDerby.handle_event
       FishingDerby.current_keys_down].
  destruct (Z.eqb_spec key K_p) as [E|_]; [congruence|].
  destruct (Z.eqb_spec key K_r) as [E|_]; [congruence|].
  rewrite Ha.
  cbn [FishingDerby.handle_events FishingDerby.handle_event
       FishingDerby.current_keys_down FishingDerby.running
       FishingDerby.paused FishingDerby.env_resets
       FishingDerby.current_mouse_pos].
  rewrite bool_decide_eq_true_2
    by (apply elem_of_union_l, elem_of_singleton; reflexivity).
  f_equal. f_equal.
  apply set_eq. intros k.
  rewrite elem_of_difference, elem_of_union, elem_of_singleton.
  split; [intros [[->|Hin] Hne]; [done|exact Hin]|].
  intros Hin. split; [right; exact Hin|]. intros ->. done.
Qed.
End HandlerFacts.

(** The key codes of pygame for P and R, and a key map with the space bar
    and R as action keys. *)
Lemma handle_user_input_flags_witness :
  true = true && negb (existsb FishingDerby.is_quit
           [FishingDerby.KEYDOWN 112; FishingDerby.OTHER;
            FishingDerby.KEYDOWN 112; FishingDerby.KEYDOWN 114]) /\
  false = xorb false (Nat.odd (FishingDerby.presses 112
           [FishingDerby.KEYDOWN 112; FishingDerby.OTHER;
            FishingDerby.KEYDOWN 112; FishingDerby.KEYDOWN 114])) /\
  1%nat = (0 + FishingDerby.presses 114
           [FishingDerby.KEYDOWN 112; FishingDerby.OTHER;
            FishingDerby.KEYDOWN 112; FishingDerby.KEYDOWN 114])%nat /\
  (3, 4) = (3, 4).
Proof.
  apply (handle_user_input_flags 112 114 ∅ (3, 4)
           [FishingDerby.KEYDOWN 112; FishingDerby.OTHER;
            FishingDerby.KEYDOWN 112; FishingDerby.KEYDOWN 114]
           (FishingDerby.mkHuman true false ∅ (0, 0) 0)
           (FishingDerby.mkHuman true false ∅ (3, 4) 1)).
  reflexivity.
Defined.

Lemma handle_user_input_held_keys_witness :
  FishingDerby.held_keys_ok 114 {[ [32] := 1 ]}
    (FishingDerby.state_of
       (FishingDerby._handle_user_input 112 114 {[ [32] := 1 ]} (0, 0)
          [FishingDerby.KEYDOWN 32; FishingDerby.KEYDOWN 114;
           FishingDerby.KEYUP 97]
          (FishingDerby.mkHuman true false ∅ (0, 0) 0))).
Proof.
  apply (handle_user_input_held_keys 112 114 {[ [32] := 1 ]}).
  intros key Hkey. cbn in Hkey.
  exfalso. exact (not_elem_of_empty key Hkey).
Defined.

Lemma keyup_of_unheld_key_raises_witness :
  FishingDerby._handle_user_input 112 114 {[ [32] := 1 ]} (0, 0)
    [FishingDerby.KEYUP 32; FishingDerby.QUIT]
    (FishingDerby.mkHuman true false ∅ (5, 5) 0) =
  FishingDerby.KeyError 32 (FishingDerby.mkHuman true false ∅ (0, 0) 0).
Proof.
  apply (keyup_of_unheld_key_raises 112 114 {[ [32] := 1 ]} (0, 0) 32
           [FishingDerby.QUIT] (FishingDerby.mkHuman true false ∅ (5, 5) 0)).
  - reflexivity.
  - apply not_elem_of_empty.
Defined.

Lemma reset_key_release_raises_witness :
  FishingDerby._handle_user_input 112 114 {[ [114] := 2 ]} (0, 0)
    [FishingDerby.KEYDOWN 114; FishingDerby.KEYUP 114]
    (FishingDerby.mkHuman true false ∅ (0, 0) 0) =
  FishingDerby.KeyError 114 (FishingDerby.mkHuman true false ∅ (0, 0) 1).
Proof.
  apply (reset_key_release_raises 112 114 {[ [114] := 2 ]} (0, 0) []
           (FishingDerby.mkHuman true false ∅ (0, 0) 0)).
  - lia.
  - reflexivity.
  - apply not_elem_of_empty.
Defined.

Lemma press_then_release_witness :
  FishingDerby._handle_user_input 112 114 {[ [32] := 1 ]} (0, 0)
    [FishingDerby.KEYDOWN 32; FishingDerby.KEYUP 32]
    (FishingDerby.mkHuman true false ∅ (0, 0) 0) =
  FishingDerby.Handled (FishingDerby.mkHuman true false ∅ (0, 0) 0).
Proof.
  apply (press_then_release 112 114 {[ [32] := 1 ]} (0, 0) 32
           (FishingDerby.mkHuman true false ∅ (0, 0) 0)).
  - lia.
  - lia.
  - reflexivity.
  - apply not_elem_of_empty.
Defined.
